(** * trivy-kubernetes: a shallow embedding of pkg/k8s/k8s.go and
      pkg/artifacts/artifacts.go, and the properties of the BOM pipeline.

    Go strings are byte sequences; they are modelled by [string] (a list
    of 8-bit [ascii]).  Go maps are [gmap]s; the order in which a [range]
    loop visits a map is not fixed by the language and is a parameter
    ([MapRange]).  A Go function returning [(T, error)] returns a
    [result T]. *)

From Stdlib Require Import ZArith Ascii String List Lia Permutation.
From stdpp Require Import gmap strings list fin_maps.

Set Warnings "-register-all".
Local Open Scope string_scope.
Local Open Scope Z_scope.

(** ** Go runtime: Unicode tables and map iteration *)

(** The parts of Go's [strings] package that consult the Unicode tables.
    [strings.ToLower] and [strings.TrimSpace] only reach them on input
    that holds a byte >= 0x80. *)
Record Unicode := {
  (** [strings.Map(unicode.ToLower, s)] *)
  MapToLower : string -> string;
  (** [strings.TrimFunc(s, unicode.IsSpace)] *)
  TrimFuncIsSpace : string -> string;
  (** [strings.TrimRightFunc(s, unicode.IsSpace)] *)
  TrimRightFuncIsSpace : string -> string
}.

(** The tables restricted to ASCII text, on which they are never reached. *)
Definition asciiUnicode : Unicode :=
  {| MapToLower := fun s => s;
     TrimFuncIsSpace := fun s => s;
     TrimRightFuncIsSpace := fun s => s |}.

(** A [for k, v := range m] loop visits every entry of [m] once, in an
    order the runtime picks.  [rangeOf] is any such choice of order; the
    properties below hold for every choice, and none of the functions
    ranges twice over one map. *)
Record MapRange := {
  rangeOf : forall A : Type, gmap string A -> list (string * A);
  rangeOf_perm : forall (A : Type) (m : gmap string A), rangeOf A m ≡ₚ map_to_list m
}.
Arguments rangeOf _ {A} m.

(** One admissible order: the one [map_to_list] enumerates. *)
Definition canonicalRange : MapRange :=
  {| rangeOf := fun A m => map_to_list m;
     rangeOf_perm := fun A m => reflexivity (map_to_list m) |}.

(** ** Package strings *)
Module strings.

Definition isASCIIByte (c : ascii) : bool := (nat_of_ascii c <? 128)%nat.

Fixpoint isASCII (s : string) : bool :=
  match s with
  | EmptyString => true
  | String c s' => isASCIIByte c && isASCII s'
  end.

Definition HasPrefix (s prefix : string) : bool := String.prefix prefix s.

(** [s[n:]] for [n <= len(s)] *)
Fixpoint sliceFrom (n : nat) (s : string) : string :=
  match n, s with
  | O, _ => s
  | S n', String _ s' => sliceFrom n' s'
  | S _, EmptyString => EmptyString
  end.

(** [s[:n]] for [n <= len(s)] *)
Definition sliceTo (n : nat) (s : string) : string := String.substring 0 n s.

Definition HasSuffix (s suffix : string) : bool :=
  (String.length suffix <=? String.length s)%nat
  && String.eqb (sliceFrom (String.length s - String.length suffix) s) suffix.

Definition TrimPrefix (s prefix : string) : string :=
  if HasPrefix s prefix then sliceFrom (String.length prefix) s else s.

(** [strings.Index]: the byte offset of the first occurrence, or -1. *)
Fixpoint Index (s substr : string) : Z :=
  if String.prefix substr s then 0
  else match s with
       | EmptyString => -1
       | String _ s' => let i := Index s' substr in if i <? 0 then -1 else i + 1
       end.

Definition Contains (s substr : string) : bool := 0 <=? Index s substr.

(** [strings.Split(s, sep)] for a separator that is not empty, the only
    kind the program passes.  [skip] counts the bytes of a separator
    still to be passed over, [piece] is the piece being read. *)
Fixpoint splitFrom (sep : string) (skip : nat) (piece s : string) : list string :=
  match s with
  | EmptyString => [piece]
  | String c s' =>
      match skip with
      | S k => splitFrom sep k piece s'
      | O =>
          if String.prefix sep s
          then piece :: splitFrom sep (String.length sep - 1) EmptyString s'
          else splitFrom sep O (piece ++ String c EmptyString) s'
      end
  end.

Definition Split (s sep : string) : list string := splitFrom sep O EmptyString s.

(** [strings.Replace(s, old, new, n)] for [n >= 0] and [old] not empty. *)
Fixpoint replaceFrom (old new : string) (n skip : nat) (s : string) : string :=
  match s with
  | EmptyString => EmptyString
  | String c s' =>
      match skip with
      | S k => replaceFrom old new n k s'
      | O =>
          match n with
          | O => s
          | S n' =>
              if String.prefix old s
              then new ++ replaceFrom old new n' (String.length old - 1) s'
              else String c (replaceFrom old new n O s')
          end
      end
  end.

Definition Replace (s old new : string) (n : nat) : string := replaceFrom old new n O s.

Fixpoint inCutset (c : ascii) (cutset : string) : bool :=
  match cutset with
  | EmptyString => false
  | String d cutset' => Ascii.eqb c d || inCutset c cutset'
  end.

Fixpoint TrimLeft (s cutset : string) : string :=
  match s with
  | EmptyString => EmptyString
  | String c s' => if inCutset c cutset then TrimLeft s' cutset else s
  end.

Fixpoint TrimRight (s cutset : string) : string :=
  match s with
  | EmptyString => EmptyString
  | String c s' =>
      match TrimRight s' cutset with
      | EmptyString => if inCutset c cutset then EmptyString else String c EmptyString
      | r => String c r
      end
  end.

(** [strings.Trim(s, cutset)] for a cutset of ASCII bytes: every leading
    and every trailing byte of [s] that is in the cutset is removed. *)
Definition Trim (s cutset : string) : string := TrimLeft (TrimRight s cutset) cutset.

(** The bytes of Go's [asciiSpace] table: tab, line feed, vertical tab,
    form feed, carriage return and space. *)
Definition isAsciiSpace (c : ascii) : bool :=
  let n := nat_of_ascii c in
  ((9 <=? n) && (n <=? 13) || (n =? 32))%nat.

Fixpoint trimRightAsciiSpace (s : string) : string :=
  match s with
  | EmptyString => EmptyString
  | String c s' =>
      match trimRightAsciiSpace s' with
      | EmptyString => if isAsciiSpace c then EmptyString else String c EmptyString
      | r => String c r
      end
  end.

Fixpoint lastByteIsASCII (s : string) : bool :=
  match s with
  | EmptyString => true
  | String c EmptyString => isASCIIByte c
  | String _ s' => lastByteIsASCII s'
  end.

(** Second loop of [strings.TrimSpace]: ASCII space is dropped from the
    end; a byte >= 0x80 met there hands the rest to the Unicode tables. *)
Definition trimSpaceRight (U : Unicode) (s : string) : string :=
  let r := trimRightAsciiSpace s in
  if lastByteIsASCII r then r else TrimRightFuncIsSpace U r.

(** [strings.TrimSpace], first loop: ASCII space is dropped from the
    start; a byte >= 0x80 met there hands [s[start:]] to the Unicode
    tables. *)
Fixpoint TrimSpace (U : Unicode) (s : string) : string :=
  match s with
  | EmptyString => EmptyString
  | String c s' =>
      if negb (isASCIIByte c) then TrimFuncIsSpace U s
      else if isAsciiSpace c then TrimSpace U s'
      else trimSpaceRight U s
  end.

Definition lowerByte (c : ascii) : ascii :=
  let n := nat_of_ascii c in
  if ((65 <=? n) && (n <=? 90))%nat then ascii_of_nat (n + 32) else c.

Fixpoint lowerBytes (s : string) : string :=
  match s with
  | EmptyString => EmptyString
  | String c s' => String (lowerByte c) (lowerBytes s')
  end.

Definition ToLower (U : Unicode) (s : string) : string :=
  if isASCII s then lowerBytes s else MapToLower U s.

End strings.

(** ** Errors and results *)

(** How the API machinery classifies a failed call
    ([k8sapierror.IsNotFound], [k8sapierror.IsForbidden]). *)
Inductive StatusReason := ReasonNotFound | ReasonForbidden | ReasonOther.

(** The errors of the program, one constructor per [fmt.Errorf] site. *)
Inductive error :=
  (** an error of the cluster API (or of its transport) *)
| StatusError (reason : StatusReason) (msg : string)
  (** an error of a library: a parser or a decoder *)
| LibraryError (msg : string)
  (** "unable to parse image name %q: %v" (the cause is not wrapped) *)
| ParseImageNameError (imageName : string) (cause : error)
  (** "unable to parse digest %q for %q" *)
| ParseDigestError (imageId imageName : string)
  (** "getting service account by name: %s/%s: %w" *)
| ServiceAccountError (ns name : string) (cause : error)
  (** "getting secret by name: %s/%s: %w" *)
| SecretError (ns name : string) (cause : error)
  (** "reading %s or %s field of %q secret: %w" *)
| ReadSecretError (secret : string) (cause : error)
  (** "unstructured resource do not match Pod spec" *)
| NoPodSpecError
  (** "%v accessor error: ..." of package unstructured *)
| AccessorError (fields : list string).

(** The status reason [errors.As] finds in an error: [%w] is looked
    through, [%v] is not. *)
Fixpoint reasonForError (e : error) : option StatusReason :=
  match e with
  | StatusError r _ => Some r
  | ServiceAccountError _ _ c | SecretError _ _ c | ReadSecretError _ c => reasonForError c
  | _ => None
  end.

Definition IsNotFound (e : error) : bool :=
  match reasonForError e with Some ReasonNotFound => true | _ => false end.

Definition IsForbidden (e : error) : bool :=
  match reasonForError e with Some ReasonForbidden => true | _ => false end.

(** The pair [(T, error)] a Go function returns. *)
Inductive result (A : Type) := Ok (a : A) | Err (e : error).
Arguments Ok {A} a.
Arguments Err {A} e.

(** The value of a result, [None] for an error. *)
Definition okValue {A : Type} (r : result A) : option A :=
  match r with Ok a => Some a | Err _ => None end.

(** A call that either returns or panics. *)
Inductive outcome (A : Type) := Returns (a : A) | Panics.
Arguments Returns {A} a.
Arguments Panics {A}.

(** The value a call returns without error, [None] otherwise. *)
Definition returnedValue {A : Type} (o : outcome (result A)) : option A :=
  match o with Returns (Ok a) => Some a | _ => None end.

(** ** Package unstructured (k8s.io/apimachinery) *)
Module unstructured.

(** A decoded JSON value, Go's [interface{}] inside an
    [unstructured.Unstructured]. *)
Inductive value :=
| VNull
| VBool (b : bool)
| VInt (n : Z)
| VString (s : string)
| VMap (m : gmap string value)
| VSlice (l : list value).

(** The loop of [NestedFieldNoCopy], from the value reached after the
    fields [walked]: the error names the path up to the field asked of
    a value that is no map, [fields[:i+1]]. *)
Fixpoint nestedFieldFrom (walked : list string) (val : value) (fields : list string)
  : result (option value) :=
  match fields with
  | [] => Ok (Some val)
  | field :: rest =>
      match val with
      | VNull => Ok None
      | VMap m =>
          match m !! field with
          | Some v => nestedFieldFrom (walked ++ [field]) v rest
          | None => Ok None
          end
      | _ => Err (AccessorError (walked ++ [field]))
      end
  end.

(** [(value, found, err)]: [Ok None] is "not found". *)
Definition NestedFieldNoCopy (val : value) (fields : list string) : result (option value) :=
  nestedFieldFrom [] val fields.

Definition NestedSlice (obj : gmap string value) (fields : list string)
  : result (option (list value)) :=
  match NestedFieldNoCopy (VMap obj) fields with
  | Err e => Err e
  | Ok None => Ok None
  | Ok (Some (VSlice l)) => Ok (Some l)
  | Ok (Some _) => Err (AccessorError fields)
  end.

Definition NestedString (obj : gmap string value) (fields : list string)
  : result (option string) :=
  match NestedFieldNoCopy (VMap obj) fields with
  | Err e => Err e
  | Ok None => Ok None
  | Ok (Some (VString s)) => Ok (Some s)
  | Ok (Some _) => Err (AccessorError fields)
  end.

Definition NestedMap (obj : gmap string value) (fields : list string)
  : result (option (gmap string value)) :=
  match NestedFieldNoCopy (VMap obj) fields with
  | Err e => Err e
  | Ok None => Ok None
  | Ok (Some (VMap m)) => Ok (Some m)
  | Ok (Some _) => Err (AccessorError fields)
  end.

Record Unstructured := { Object : gmap string value }.

(** [getNestedString]: the empty string unless a string is found. *)
Definition getNestedString (obj : gmap string value) (fields : list string) : string :=
  match NestedString obj fields with
  | Ok (Some s) => s
  | _ => EmptyString
  end.

Definition GetKind (u : Unstructured) : string := getNestedString (Object u) ["kind"].

Definition GetNamespace (u : Unstructured) : string :=
  getNestedString (Object u) ["metadata"; "namespace"].

End unstructured.

(** ** Package corev1 (k8s.io/api/core/v1): the fields the program reads *)
Module corev1.

Record Container := { Image : string }.

Record ContainerStatus := { StatusImage : string; ImageID : string }.

Record LocalObjectReference := { RefName : string }.

Record PodSpec := {
  Containers : list Container;
  ImagePullSecrets : list LocalObjectReference;
  ServiceAccountName : string
}.

Record Pod := {
  PodName : string;
  PodNamespace : string;
  PodLabels : gmap string string;
  Spec : PodSpec;
  ContainerStatuses : list ContainerStatus
}.

Record NodeSystemInfo := {
  KubeletVersion : string;
  ContainerRuntimeVersion : string;
  OSImage : string;
  KernelVersion : string;
  OperatingSystem : string;
  Architecture : string
}.

Record ContainerImage := { Names : list string }.

Record Node := {
  NodeName : string;
  NodeLabels : gmap string string;
  NodeInfo : NodeSystemInfo;
  Images : list ContainerImage
}.

Record ServiceAccount := { SAImagePullSecrets : list LocalObjectReference }.

Record Secret := {
  SecretNamespace : string;
  SecretName : string;
  SecretType : string;
  Data : gmap string string
}.

Definition SecretTypeDockerConfigJson : string := "kubernetes.io/dockerconfigjson".
Definition DockerConfigJsonKey : string := ".dockerconfigjson".
Definition SecretTypeDockercfg : string := "kubernetes.io/dockercfg".
Definition DockerConfigKey : string := ".dockercfg".

End corev1.

(** ** Package bom: the records k8s.go fills in *)
Module bom.

Record Container := {
  Repository : string;
  Registry : string;
  ID : string;
  Digest : string;
  Version : string
}.

Record Component := {
  Namespace : string;
  Name : string;
  ComponentVersion : string;
  Properties : gmap string string;
  Containers : list Container
}.

Record NodeInfo := {
  NodeName : string;
  KubeletVersion : string;
  ContainerRuntimeVersion : string;
  OsImage : string;
  NodeProperties : gmap string string;
  Images : list string
}.

Record Result := {
  Components : list Component;
  ResultID : string;
  ResultType : string;
  ResultVersion : string;
  ResultProperties : gmap string string;
  NodesInfo : list NodeInfo
}.

End bom.

(** ** Package docker (pkg/k8s/docker): the credential record *)
Module docker.

(** Modelled from the spec: the declaration of [docker.Auth] is not
    among the sources; the spec has a secret decode into a mapping from
    server to username and password, the two fields k8s.go sets. *)
Record Auth := { Username : string; Password : string }.

End docker.

(** ** Package name (go-containerregistry): a parsed image reference *)
Module containerimage.

Record Reference := {
  RegistryStr : string;
  RepositoryStr : string;
  Identifier : string
}.

Definition DefaultRegistry : string := "index.docker.io".

End containerimage.

(** ** Package digest (opencontainers/go-digest) *)
Module digest.

(** [digest.Canonical], the algorithm "sha256", and its [Size()] in bytes. *)
Definition Canonical : string := "sha256".
Definition CanonicalSize : nat := 32.

End digest.

(** ** The cluster data source *)
Module client.

(** The calls of [kubernetes.Clientset] the program makes, as the
    cluster answers them during one build. *)
Record Clientset := {
  (** [CoreV1().Nodes().List] *)
  NodesList : result (list corev1.Node);
  (** [CoreV1().Pods(namespace).List] with a label selector *)
  PodsList : string -> string -> result (list corev1.Pod);
  (** [CoreV1().Namespaces().Get(name)] *)
  NamespacesGet : string -> result unit;
  (** [CoreV1().ServiceAccounts(ns).Get(name)] *)
  ServiceAccountsGet : string -> string -> result corev1.ServiceAccount;
  (** [CoreV1().Secrets(ns).Get(name)] *)
  SecretsGet : string -> string -> result corev1.Secret;
  (** [ServerVersion()], its [GitVersion] *)
  ServerVersion : result string
}.

(** [clientcmdapi.Context] and [clientcmdapi.Config] *)
Record KubeContext := { Cluster : string; ContextNamespace : string }.

Record RawConfig := { Contexts : gmap string KubeContext; CurrentContext : string }.

End client.

(** ** Packages schema and metav1 (k8s.io/apimachinery) *)
Module schema.

Record GroupVersionResource := { Group : string; Version : string; Resource : string }.

End schema.

Module metav1.

(** [metav1.OwnerReference], the field the program reads. *)
Record OwnerReference := { Kind : string }.

End metav1.

(** ** Package k8s (pkg/k8s/k8s.go) *)
Module k8s.
Import strings.

(** [m[k]] of a Go map of strings: the empty string when [k] is absent. *)
Definition mapIndex (m : gmap string string) (k : string) : string :=
  default EmptyString (m !! k).

(** [l[i]] of a slice of strings, read where [i] is within range. *)
Definition sliceIndex (l : list string) (i : nat) : string :=
  default EmptyString (l !! i).

Definition UpstreamOrgName : gmap string string :=
  list_to_map [
    ("k8s.io", "controller-manager,kubelet,apiserver,kubectl,kubernetes,kube-scheduler,kube-proxy,cloud-provider,ingress-nginx");
    ("sigs.k8s.io", "secrets-store-csi-driver");
    ("go.etcd.io", "etcd/v3")
  ].

Definition UpstreamRepoName : gmap string string :=
  list_to_map [
    ("kube-controller-manager", "controller-manager");
    ("kubelet", "kubelet");
    ("kube-apiserver", "apiserver");
    ("kubectl", "kubectl");
    ("kubernetes", "kubernetes");
    ("kube-scheduler", "kube-scheduler");
    ("kube-proxy", "kube-proxy");
    ("api server", "apiserver");
    ("etcd", "etcd/v3");
    ("cloud-controller-manager", "cloud-provider");
    ("secrets-store-csi-driver", "secrets-store-csi-driver")
  ].

Definition CoreComponentPropertyType : gmap string string :=
  list_to_map [
    ("controller-manager", "controlPlane");
    ("apiserver", "controlPlane");
    ("kube-scheduler", "controlPlane");
    ("etcd/v3", "controlPlane");
    ("cloud-provider", "controlPlane");
    ("kube-proxy", "node")
  ].

Definition KindPod : string := "Pod".
Definition KindJob : string := "Job".
Definition KindCronJob : string := "CronJob".
Definition KindReplicaSet : string := "ReplicaSet".
Definition KindReplicationController : string := "ReplicationController".
Definition KindStatefulSet : string := "StatefulSet".
Definition KindDaemonSet : string := "DaemonSet".
Definition KindDeployment : string := "Deployment".
Definition k8sComponentNamespace : string := "kube-system".
Definition serviceAccountDefault : string := "default".

Record cluster := {
  currentContext : string;
  serverVersion : string;
  clientset : client.Clientset;
  (** [cConfig.RawConfig()] *)
  cConfigRawConfig : result client.RawConfig
}.

(** A loop over a slice whose body may return an error. *)
Fixpoint foldResult {A B : Type} (f : B -> A -> result B) (b : B) (l : list A) : result B :=
  match l with
  | [] => Ok b
  | a :: l' => match f b a with Ok b' => foldResult f b' l' | Err e => Err e end
  end.

Section Program.

(** The Go runtime. *)
Variable U : Unicode.
Variable R : MapRange.

(** [utils.ParseReference] (package utils): the
    image-reference grammar of go-containerregistry. *)
Variable ParseReference : string -> result containerimage.Reference.

(** Package docker (pkg/k8s/docker):
    [GetServerFromDockerAuthKey], [GetServerFromImageRef], and
    [Config.Read(data, isLegacy)] with the [Auths] it leaves in the
    config. *)
Variable GetServerFromDockerAuthKey : string -> result string.
Variable GetServerFromImageRef : string -> result string.
Variable ConfigRead : string -> bool -> result (gmap string docker.Auth).

(** [mapstructure.Decode(objectMap, ps)]: the pod spec it fills in and
    the error it reports. *)
Variable Decode : gmap string unstructured.value -> corev1.PodSpec * option error.

Definition extractDigest (imageId : string) : string :=
  let imageId :=
    if Contains imageId "@" then sliceIndex (Split imageId "@") 1 else imageId in
  TrimPrefix imageId (digest.Canonical ++ ":").

Definition GetContainer (imageName imageId : string) : result bom.Container :=
  let imageName :=
    if Contains imageName "@" then sliceIndex (Split imageName "@") 0 else imageName in
  match ParseReference imageName with
  | Err err => Err (ParseImageNameError imageName err)
  | Ok imageRef =>
      let imageDigest := extractDigest imageId in
      if negb (String.length imageDigest =? digest.CanonicalSize * 2)%nat
      then Err (ParseDigestError imageId imageName)
      else
        let repoName := containerimage.RepositoryStr imageRef in
        let registryName := containerimage.RegistryStr imageRef in
        let repoName :=
          if String.eqb registryName containerimage.DefaultRegistry
          then TrimPrefix repoName "library/" else repoName in
        let version := containerimage.Identifier imageRef in
        Ok {| bom.Repository := repoName;
              bom.Registry := registryName;
              bom.ID := repoName ++ ":" ++ version;
              bom.Digest := imageDigest;
              bom.Version := version |}
  end.

Definition k8sVersions (version : string) : string :=
  if Contains version "+rke2" then sliceTo (Z.to_nat (Index version "+rke2")) version
  else if Contains version "-rke2" then sliceTo (Z.to_nat (Index version "-rke2")) version
  else if Contains version "-k3s" then sliceTo (Z.to_nat (Index version "-k3s")) version
  else version.

Definition trimString (version : string) (trimValues : list string) : string :=
  TrimSpace U (foldl (fun version v => Trim version v) version trimValues).

Definition getImageID (image : string) : string :=
  if HasPrefix image (digest.Canonical ++ ":") then image
  else
    match Split image "@" with
    | _ :: part1 :: _ =>
        if HasPrefix part1 (digest.Canonical ++ ":") then part1 else EmptyString
    | _ => EmptyString
    end.

Definition upstreamRepoByName (component : string) : string :=
  match UpstreamRepoName !! component with
  | Some val => val
  | None => component
  end.

(** The inner loop of [upstreamOrgByName]: some member of the
    comma-separated list equals the lower-cased component. *)
Definition ownsComponent (components component : string) : bool :=
  existsb (fun c => String.eqb (TrimSpace U c) (ToLower U component))
          (Split components ",").

Definition upstreamOrgByName (component : string) : string :=
  match List.find (fun kv => ownsComponent kv.2 component) (rangeOf R UpstreamOrgName) with
  | Some (key, _) => key
  | None => EmptyString
  end.

Fixpoint findComponentVersion (containers : list bom.Container) (name : string) : string :=
  match containers with
  | [] => EmptyString
  | c :: rest =>
      if Contains (bom.Version c) "rke2" || Contains (bom.Version c) "k3s"
      then k8sVersions (bom.Version c)
      else if Contains (bom.ID c) name then bom.Version c
      else findComponentVersion rest name
  end.

Definition NodeInfo (node : corev1.Node) : bom.NodeInfo :=
  let nodeRole := "worker" in
  let nodeRole :=
    match corev1.NodeLabels node !! "node-role.kubernetes.io/control-plane" with
    | Some _ => "master" | None => nodeRole end in
  let nodeRole :=
    match corev1.NodeLabels node !! "node-role.kubernetes.io/master" with
    | Some _ => "master" | None => nodeRole end in
  let info := corev1.NodeInfo node in
  {| bom.NodeName := corev1.NodeName node;
     bom.KubeletVersion := trimString (k8sVersions (corev1.KubeletVersion info)) ["v"; "V"];
     bom.ContainerRuntimeVersion := corev1.ContainerRuntimeVersion info;
     bom.OsImage := corev1.OSImage info;
     bom.NodeProperties :=
       list_to_map [
         ("NodeRole", nodeRole);
         ("HostName", corev1.NodeName node);
         ("KernelVersion", corev1.KernelVersion info);
         ("OperatingSystem", corev1.OperatingSystem info);
         ("Architecture", corev1.Architecture info)
       ];
     bom.Images := [] |}.

(** The images of one node that some component's container names. *)
Definition nodeImages (node : corev1.Node) (components : list bom.Component) : list string :=
  flat_map (fun image =>
    flat_map (fun c =>
      flat_map (fun co =>
        let id := bom.Registry co ++ "/" ++ bom.Repository co ++ ":" ++ bom.Version co in
        if existsb (String.eqb id) (corev1.Names image) then [id] else [])
      (bom.Containers c))
    components)
  (corev1.Images node).

Definition CollectNodes (c : cluster) (components : list bom.Component)
  : result (list bom.NodeInfo) :=
  match client.NodesList (clientset c) with
  | Err err =>
      if IsNotFound err || IsForbidden err then Ok [] else Err err
  | Ok nodes =>
      Ok (map (fun node =>
                 let nf := NodeInfo node in
                 {| bom.NodeName := bom.NodeName nf;
                    bom.KubeletVersion := bom.KubeletVersion nf;
                    bom.ContainerRuntimeVersion := bom.ContainerRuntimeVersion nf;
                    bom.OsImage := bom.OsImage nf;
                    bom.NodeProperties := bom.NodeProperties nf;
                    bom.Images := nodeImages node components |})
              nodes)
  end.

Definition getPodsInfo (cs : client.Clientset) (labelSelector namespace : string)
  : result (list corev1.Pod) :=
  match client.PodsList cs namespace labelSelector with
  | Err err => Err err
  | Ok pods => Ok pods
  end.

Definition getImageIDsByStatuses (pod : corev1.Pod) : list string :=
  let containers := corev1.Containers (corev1.Spec pod) in
  let statuses := corev1.ContainerStatuses pod in
  let ids := replicate (length containers) EmptyString in
  if ((length containers =? 1) && (length statuses =? 1))%nat then
    match statuses !! 0%nat with
    | Some status => <[0%nat := getImageID (corev1.ImageID status)]> ids
    | None => ids
    end
  else
    let statusMap : gmap string string :=
      foldl (fun m status => <[corev1.StatusImage status := corev1.ImageID status]> m)
            ∅ statuses in
    foldl (fun ids ic =>
             match statusMap !! corev1.Image ic.2 with
             | Some id => <[ic.1 := getImageID id]> ids
             | None => <[ic.1 := getImageID (corev1.Image ic.2)]> ids
             end)
          ids (imap pair containers).

(** The first loop of [PodInfo]: one container per spec container that
    parses, in order. *)
Definition podContainers (pod : corev1.Pod) (ids : list string) : list bom.Container :=
  omap (fun ic =>
          match GetContainer (corev1.Image ic.2) (sliceIndex ids ic.1) with
          | Ok container => Some container
          | Err _ => None
          end)
       (imap pair (corev1.Containers (corev1.Spec pod))).

Definition PodInfo (pod : corev1.Pod) (labelSelector : string) : result bom.Component :=
  let ids := getImageIDsByStatuses pod in
  let containers := podContainers pod ids in
  let labels := corev1.PodLabels pod in
  let name := mapIndex labels "app.kubernetes.io/name" in
  let version := mapIndex labels "app.kubernetes.io/version" in
  let props : gmap string string :=
    <["Type" := mapIndex labels "app.kubernetes.io/component"]>
      (<["Name" := corev1.PodName pod]> ∅) in
  let '(name, props) :=
    if String.eqb name EmptyString then
      let componentValue := mapIndex labels labelSelector in
      let name := upstreamRepoByName componentValue in
      match CoreComponentPropertyType !! name with
      | Some val => (name, <["Type" := val]> props)
      | None => (name, props)
      end
    else (name, props) in
  let orgName := upstreamOrgByName name in
  let name :=
    if (0 <? String.length orgName)%nat then orgName ++ "/" ++ name else name in
  let version :=
    if String.eqb version EmptyString
    then trimString (findComponentVersion containers (mapIndex labels labelSelector)) ["v"; "V"]
    else version in
  Ok {| bom.Namespace := corev1.PodNamespace pod;
        bom.Name := name;
        bom.ComponentVersion := version;
        bom.Properties := props;
        bom.Containers := containers |}.

Definition collectComponents (c : cluster) (labels : gmap string string)
  : result (list bom.Component) :=
  Ok (flat_map
        (fun entry =>
           let '(namespace, labelSelector) := entry in
           match getPodsInfo (clientset c) labelSelector namespace with
           | Err _ => []
           | Ok pods =>
               flat_map (fun pod =>
                           match PodInfo pod labelSelector with
                           | Ok pi => [pi]
                           | Err _ => []
                           end)
                        pods
           end)
        (rangeOf R labels)).

Definition isOpenShift (c : cluster) : bool :=
  match client.NamespacesGet (clientset c) "openshift-kube-apiserver" with
  | Ok _ => true
  | Err err => negb (IsNotFound err)
  end.

Definition CreateBomComponents (c : cluster) (namespace : string)
  : result (list bom.Component) :=
  let labels : gmap string string := {[ namespace := "component" ]} in
  let labels : gmap string string :=
    if negb (String.eqb namespace EmptyString) && isOpenShift c then
      list_to_map [
        ("openshift-kube-apiserver", "apiserver");
        ("openshift-kube-controller-manager", "kube-controller-manager");
        ("openshift-kube-scheduler", "scheduler");
        ("openshift-etcd", "etcd")
      ]
    else labels in
  match collectComponents c labels with
  | Err err => Err err
  | Ok components =>
      let addonLabels : gmap string string :=
        {[ namespace := "app.kubernetes.io/component=controller" ]} in
      let addonLabels :=
        if String.eqb namespace EmptyString || String.eqb namespace k8sComponentNamespace
        then <[k8sComponentNamespace := "k8s-app"]> addonLabels
        else addonLabels in
      match collectComponents c addonLabels with
      | Err err => Err err
      | Ok addons => Ok (components ++ addons)%list
      end
  end.

Definition ClusterNameVersion (c : cluster) : result (string * string) :=
  match cConfigRawConfig c with
  | Err err => Err err
  | Ok rawCfg =>
      let clusterName := "k8s.io/kubernetes" in
      let clusterName :=
        if (0 <? size (client.Contexts rawCfg))%nat then
          let current :=
            if negb (String.eqb (currentContext c) EmptyString)
            then currentContext c else client.CurrentContext rawCfg in
          match client.Contexts rawCfg !! current with
          | Some clusterContext => client.Cluster clusterContext
          | None => clusterName
          end
        else clusterName in
      match client.ServerVersion (clientset c) with
      | Err err => Err err
      | Ok gitVersion => Ok (clusterName, gitVersion)
      end
  end.

Definition getClusterBomInfo (c : cluster) (components : list bom.Component)
    (nodeInfo : list bom.NodeInfo) : result bom.Result :=
  match ClusterNameVersion c with
  | Err err => Err err
  | Ok (name, version) =>
      Ok {| bom.Components := components;
            bom.ResultID := "k8s.io/kubernetes";
            bom.ResultType := "Cluster";
            bom.ResultVersion := trimString version ["v"; "V"];
            bom.ResultProperties := <["Type" := "cluster"]> (<["Name" := name]> ∅);
            bom.NodesInfo := nodeInfo |}
  end.

Definition CreateClusterBom (c : cluster) : result bom.Result :=
  match CreateBomComponents c EmptyString with
  | Err err => Err err
  | Ok components =>
      match CollectNodes c components with
      | Err err => Err err
      | Ok nodesInfo => getClusterBomInfo c components nodesInfo
      end
  end.

(** [getCluster], the part that keeps the server version. *)
Definition getClusterServerVersion (gitVersion : string) : string :=
  TrimPrefix gitVersion "v".

Definition getServiceAccountByPodSpec (c : cluster) (spec : corev1.PodSpec) (ns : string)
  : result corev1.ServiceAccount :=
  let serviceAccountName := corev1.ServiceAccountName spec in
  let serviceAccountName :=
    if String.eqb serviceAccountName EmptyString
    then serviceAccountDefault else serviceAccountName in
  match client.ServiceAccountsGet (clientset c) ns serviceAccountName with
  | Err err => Err (ServiceAccountError ns serviceAccountName err)
  | Ok sa => Ok sa
  end.

Definition ListByLocalObjectReferences (c : cluster)
    (refs : list corev1.LocalObjectReference) (ns : string) : result (list corev1.Secret) :=
  foldResult
    (fun secrets secretRef =>
       if String.eqb (corev1.RefName secretRef) EmptyString then Ok secrets
       else
         match client.SecretsGet (clientset c) ns (corev1.RefName secretRef) with
         | Err err =>
             if IsNotFound err || IsForbidden err then Ok secrets
             else Err (SecretError ns (corev1.RefName secretRef) err)
         | Ok secret => Ok (secrets ++ [secret])%list
         end)
    [] refs.

(** The body of the inner loop of [mapDockerRegistryServersToAuths]. *)
Definition addAuth (multiSecretSupport : bool) (auths : gmap string docker.Auth)
    (entry : string * docker.Auth) : result (gmap string docker.Auth) :=
  let '(authKey, auth) := entry in
  match GetServerFromDockerAuthKey authKey with
  | Err err => Err err
  | Ok server =>
      match auths !! server with
      | Some a =>
          if multiSecretSupport then
            let user := docker.Username a ++ "," ++ docker.Username auth in
            let pass := docker.Password a ++ "," ++ docker.Password auth in
            Ok (<[server := {| docker.Username := user; docker.Password := pass |}]> auths)
          else Ok (<[server := auth]> auths)
      | None => Ok (<[server := auth]> auths)
      end
  end.

(** The switch of the outer loop on the secret's type: [None] for the
    default arm, else [data, hasRequiredData] and [isLegacy]. *)
Definition requiredData (secret : corev1.Secret) : option (option string * bool) :=
  if String.eqb (corev1.SecretType secret) corev1.SecretTypeDockerConfigJson
  then Some (corev1.Data secret !! corev1.DockerConfigJsonKey, false)
  else if String.eqb (corev1.SecretType secret) corev1.SecretTypeDockercfg
  then Some (corev1.Data secret !! corev1.DockerConfigKey, true)
  else None.

(** The body of its outer loop. *)
Definition addSecret (multiSecretSupport : bool) (auths : gmap string docker.Auth)
    (secret : corev1.Secret) : result (gmap string docker.Auth) :=
  match requiredData secret with
  | None | Some (None, _) => Ok auths
  | Some (Some data, isLegacy) =>
      match ConfigRead data isLegacy with
      | Err err =>
          Err (ReadSecretError
                 (corev1.SecretNamespace secret ++ "/" ++ corev1.SecretName secret) err)
      | Ok dockerConfigAuths =>
          foldResult (addAuth multiSecretSupport) auths (rangeOf R dockerConfigAuths)
      end
  end.

Definition mapDockerRegistryServersToAuths (imagePullSecrets : list corev1.Secret)
    (multiSecretSupport : bool) : result (gmap string docker.Auth) :=
  foldResult (addSecret multiSecretSupport) ∅ imagePullSecrets.

Definition ListImagePullSecretsByPodSpec (c : cluster) (spec : option corev1.PodSpec)
    (ns : string) : result (gmap string docker.Auth) :=
  match spec with
  | None => Ok ∅
  | Some spec =>
      let imagePullSecrets := corev1.ImagePullSecrets spec in
      match getServiceAccountByPodSpec c spec ns with
      | Err err =>
          if negb (IsNotFound err) && negb (IsForbidden err) then Err err
          else
            (* the account the client hands back with its error is empty *)
            match ListByLocalObjectReferences c ([] ++ imagePullSecrets)%list ns with
            | Err err => Err err
            | Ok secrets => mapDockerRegistryServersToAuths secrets true
            end
      | Ok sa =>
          match ListByLocalObjectReferences c
                  (corev1.SAImagePullSecrets sa ++ imagePullSecrets)%list ns with
          | Err err => Err err
          | Ok secrets => mapDockerRegistryServersToAuths secrets true
          end
      end
  end.

Definition GetWildcardServers (auths : gmap string docker.Auth) : list string :=
  List.filter (fun server => HasPrefix server "*.") (map fst (rangeOf R auths)).

Fixpoint matchSubDomain (wildcardServers : list string) (subDomain : string) : string :=
  match wildcardServers with
  | [] => EmptyString
  | domain :: rest =>
      let domainWithoutWildcard := Replace domain "*" EmptyString 1 in
      if HasSuffix subDomain domainWithoutWildcard then domain
      else matchSubDomain rest subDomain
  end.

(** The two values returned: the credential (a pointer, [None] for nil)
    and the error. *)
Definition MapContainerNamesToDockerAuths (imageRef : string)
    (auths : gmap string docker.Auth) : option docker.Auth * option error :=
  let wildcardServers := GetWildcardServers auths in
  let authsCred := {| docker.Username := EmptyString; docker.Password := EmptyString |} in
  match GetServerFromImageRef imageRef with
  | Err err => (Some authsCred, Some err)
  | Ok server =>
      match auths !! server with
      | Some auth => (Some auth, None)
      | None =>
          if (0 <? length wildcardServers)%nat then
            let wildcardDomain := matchSubDomain wildcardServers server in
            if (0 <? String.length wildcardDomain)%nat then
              match auths !! wildcardDomain with
              | Some auth => (Some auth, None)
              | None => (None, None)
              end
            else (None, None)
          else (None, None)
      end
  end.

Definition mapToPodSpec (objectMap : gmap string unstructured.value)
  : result (option corev1.PodSpec) :=
  let '(ps, err) := Decode objectMap in
  match err with
  | Some err =>
      if (length (corev1.Containers ps) =? 0)%nat then Err err else Ok (Some ps)
  | None => Ok (Some ps)
  end.

(** One arm of the switch of [getWorkloadPodSpec]. *)
Definition podSpecAt (un : unstructured.Unstructured) (fields : list string)
  : result (option corev1.PodSpec) :=
  match unstructured.NestedMap (unstructured.Object un) fields with
  | Err err => Err err
  | Ok None => Err NoPodSpecError
  | Ok (Some objectMap) => mapToPodSpec objectMap
  end.

Definition getWorkloadPodSpec (un : unstructured.Unstructured)
  : result (option corev1.PodSpec) :=
  let kind := unstructured.GetKind un in
  if String.eqb kind KindPod then podSpecAt un ["spec"]
  else if String.eqb kind KindCronJob
  then podSpecAt un ["spec"; "jobTemplate"; "spec"; "template"; "spec"]
  else if existsb (String.eqb kind)
            [KindDeployment; KindReplicaSet; KindReplicationController;
             KindStatefulSet; KindDaemonSet; KindJob]
  then podSpecAt un ["spec"; "template"; "spec"]
  else Ok None.

Definition AuthByResource (c : cluster) (resource : unstructured.Unstructured)
  : result (gmap string docker.Auth) :=
  match getWorkloadPodSpec resource with
  | Err err => Err err
  | Ok podSpec =>
      match ListImagePullSecretsByPodSpec c podSpec (unstructured.GetNamespace resource) with
      | Err err => Err err
      | Ok serverAuths => Ok serverAuths
      end
  end.

End Program.

(** *** Resource names *)

Definition Deployments : string := "deployments".
Definition ReplicaSets : string := "replicasets".
Definition ReplicationControllers : string := "replicationcontrollers".
Definition StatefulSets : string := "statefulsets".
Definition DaemonSets : string := "daemonsets".
Definition CronJobs : string := "cronjobs".
Definition Services : string := "services".
Definition ServiceAccounts : string := "serviceaccounts".
Definition Jobs : string := "jobs".
Definition Pods : string := "pods".
Definition ConfigMaps : string := "configmaps".
Definition Roles : string := "roles".
Definition RoleBindings : string := "rolebindings".
Definition NetworkPolicies : string := "networkpolicies".
Definition Ingresses : string := "ingresses".
Definition ResourceQuotas : string := "resourcequotas".
Definition LimitRanges : string := "limitranges".
Definition ClusterRoles : string := "clusterroles".
Definition ClusterRoleBindings : string := "clusterrolebindings".
Definition Nodes : string := "nodes".

Definition getClusterResources : list string :=
  [ClusterRoles; ClusterRoleBindings; Nodes].

Definition getNamespaceResources : list string :=
  [Deployments; Pods; ReplicaSets; ReplicationControllers; StatefulSets; DaemonSets;
   CronJobs; Jobs; Services; ServiceAccounts; ConfigMaps; Roles; RoleBindings;
   NetworkPolicies; Ingresses; ResourceQuotas; LimitRanges].

Definition GetAllResources : list string :=
  (getClusterResources ++ getNamespaceResources)%list.

Definition IsClusterResource (gvr : schema.GroupVersionResource) : bool :=
  existsb (fun r => String.eqb (schema.Resource gvr) r) getClusterResources.

(** The owner reference is a pointer: [None] is nil. *)
Definition IsBuiltInWorkload (resource : option metav1.OwnerReference) : bool :=
  match resource with
  | None => false
  | Some resource =>
      String.eqb (metav1.Kind resource) KindReplicaSet
      || String.eqb (metav1.Kind resource) KindReplicationController
      || String.eqb (metav1.Kind resource) KindStatefulSet
      || String.eqb (metav1.Kind resource) KindDeployment
      || String.eqb (metav1.Kind resource) KindCronJob
      || String.eqb (metav1.Kind resource) KindDaemonSet
      || String.eqb (metav1.Kind resource) KindJob
  end.

Section Mapper.

(** [restMapper.ResourceFor] of the cluster. *)
Variable ResourceFor : schema.GroupVersionResource -> result schema.GroupVersionResource.

Definition GetGVR (kind : string) : result schema.GroupVersionResource :=
  ResourceFor {| schema.Group := EmptyString;
                 schema.Version := EmptyString;
                 schema.Resource := kind |}.

Definition GetGVRs (namespaced : bool) (resources : list string)
  : result (list schema.GroupVersionResource) :=
  let resources :=
    if (length resources =? 0)%nat then
      let resources := getNamespaceResources in
      if negb namespaced then (resources ++ getClusterResources)%list else resources
    else resources in
  foldResult
    (fun grvs resource =>
       match GetGVR resource with
       | Err err => Err err
       | Ok gvr => Ok (grvs ++ [gvr])%list
       end)
    [] resources.

End Mapper.

End k8s.

(** ** Package artifacts (pkg/artifacts/artifacts.go) *)
Module artifacts.
Import unstructured.

Record Artifact := {
  Namespace : string;
  Kind : string;
  Name : string;
  Images : list string;
  RawResource : gmap string value
}.

(** The loop of [extractImages].  The type assertion
    [container.(map[string]interface{})] panics on an entry that is not
    a map. *)
Fixpoint containerImages (containers : list value) : outcome (result (list string)) :=
  match containers with
  | [] => Returns (Ok [])
  | container :: rest =>
      match container with
      | VMap m =>
          match NestedString m ["image"] with
          | Err err => Returns (Err err)
          | Ok found =>
              match containerImages rest with
              | Returns (Ok images) =>
                  Returns (Ok (match found with
                               | Some name => name :: images
                               | None => images
                               end))
              | stopped => stopped
              end
          end
      | _ => Panics
      end
  end.

Definition extractImages (resource : Unstructured) (keys : list string)
  : outcome (result (list string)) :=
  match NestedSlice (Object resource) keys with
  | Err err => Returns (Err err)
  | Ok None => Returns (Ok [])
  | Ok (Some containers) => containerImages containers
  end.

(** The switch of [FromResource] on the kind. *)
Definition nestedKeysOf (kind : string) : list string :=
  if String.eqb kind k8s.KindPod then ["spec"]
  else if String.eqb kind k8s.KindCronJob
  then ["spec"; "jobTemplate"; "spec"; "template"; "spec"]
  else ["spec"; "template"; "spec"].

Definition FromResource (resource : Unstructured) : outcome (result Artifact) :=
  let nestedKeys := nestedKeysOf (GetKind resource) in
  match extractImages resource (nestedKeys ++ ["containers"])%list with
  | Panics => Panics
  | Returns (Err err) => Returns (Err err)
  | Returns (Ok containersImages) =>
      let images := ([] ++ containersImages)%list in
      match extractImages resource (nestedKeys ++ ["ephemeralContainers"])%list with
      | Panics => Panics
      | Returns (Err err) => Returns (Err err)
      | Returns (Ok ephemeralContainersImages) =>
          let images := (images ++ ephemeralContainersImages)%list in
          match extractImages resource (nestedKeys ++ ["initContainers"])%list with
          | Panics => Panics
          | Returns (Err err) => Returns (Err err)
          | Returns (Ok initContainersImages) =>
              let images := (images ++ initContainersImages)%list in
              match NestedString (Object resource) ["metadata"; "name"] with
              | Err err => Returns (Err err)
              | Ok found =>
                  Returns (Ok {| Namespace := GetNamespace resource;
                                 Kind := GetKind resource;
                                 Name := default EmptyString found;
                                 Images := images;
                                 RawResource := Object resource |})
              end
          end
      end
  end.

End artifacts.

(** ** The specification's vocabulary *)
Module Spec.
Import strings unstructured.

Definition isHexDigit (c : ascii) : bool :=
  let n := nat_of_ascii c in
  ((48 <=? n) && (n <=? 57) || (97 <=? n) && (n <=? 102) || (65 <=? n) && (n <=? 70))%nat.

Fixpoint allHex (s : string) : bool :=
  match s with
  | EmptyString => true
  | String c s' => isHexDigit c && allHex s'
  end.

(** "exactly 64 hex characters" *)
Definition isHex64 (s : string) : bool := (String.length s =? 64)%nat && allHex s.

(** The declared image name with any "@..." suffix stripped. *)
Definition declaredName (imageName : string) : string :=
  if Contains imageName "@" then k8s.sliceIndex (Split imageName "@") 0 else imageName.

(** The image an entry of a container list declares, if it has one. *)
Definition imageOf (entry : value) : option string :=
  match entry with
  | VMap m => match m !! "image" with Some (VString s) => Some s | _ => None end
  | _ => None
  end.

(** The images declared by the entries of the list at [fields]; none
    when there is no such list. *)
Definition imagesAt (resource : Unstructured) (fields : list string) : list string :=
  match NestedFieldNoCopy (VMap (Object resource)) fields with
  | Ok (Some (VSlice entries)) => omap imageOf entries
  | _ => []
  end.

(** An entry the extractor reads without failing: a map whose "image",
    when present, is a string. *)
Definition entryReadable (entry : value) : bool :=
  match entry with
  | VMap m => match m !! "image" with Some (VString _) | None => true | Some _ => false end
  | _ => false
  end.

(** A container list the extractor reads without failing: absent, or a
    list of readable entries. *)
Definition listReadable (resource : Unstructured) (fields : list string) : bool :=
  match NestedFieldNoCopy (VMap (Object resource)) fields with
  | Ok None => true
  | Ok (Some (VSlice entries)) => forallb entryReadable entries
  | _ => false
  end.

Definition nameReadable (resource : Unstructured) : bool :=
  match NestedString (Object resource) ["metadata"; "name"] with
  | Ok _ => true
  | Err _ => false
  end.

Definition readable (resource : Unstructured) : bool :=
  let path := artifacts.nestedKeysOf (GetKind resource) in
  listReadable resource (path ++ ["containers"])%list
  && listReadable resource (path ++ ["ephemeralContainers"])%list
  && listReadable resource (path ++ ["initContainers"])%list
  && nameReadable resource.



(** A wildcard key matches a registry host: the key starts with "*."
    and, with the "*" removed, is a suffix of the host. *)
Definition wildcardMatch (key host : string) : bool :=
  HasPrefix key "*." && HasSuffix host (sliceFrom 1 key).

(** The supported workload set. *)
Definition workloadKinds : list string :=
  [k8s.KindPod; k8s.KindCronJob; k8s.KindDeployment; k8s.KindReplicaSet;
   k8s.KindReplicationController; k8s.KindStatefulSet; k8s.KindDaemonSet; k8s.KindJob].

(** Table (a), row by row. *)
Definition orgTable : list (string * string) :=
  [ ("k8s.io", "controller-manager,kubelet,apiserver,kubectl,kubernetes,kube-scheduler,kube-proxy,cloud-provider,ingress-nginx");
    ("sigs.k8s.io", "secrets-store-csi-driver");
    ("go.etcd.io", "etcd/v3") ].

(** A name matches a comma-separated member list: it equals one of the
    members, case apart. *)
Definition ownedBy (U : Unicode) (components name : string) : Prop :=
  exists member, member ∈ Split components ","
                 /\ ToLower U member = ToLower U name.

(** The organization owns the name: its row of table (a) matches it. *)
Definition owns (U : Unicode) (org name : string) : Prop :=
  exists components, k8s.UpstreamOrgName !! org = Some components /\ ownedBy U components name.

(** The image ID recorded for a declared image by the last status entry
    with that image, if any. *)
Definition statusImageID (image : string) (statuses : list corev1.ContainerStatus)
  : option string :=
  corev1.ImageID <$>
    last (List.filter (fun st => String.eqb (corev1.StatusImage st) image) statuses).

(** The image ID source for a declared image: the matching status
    entry's image ID, else the declared image itself. *)
Definition idSource (statuses : list corev1.ContainerStatus) (image : string) : string :=
  default image (statusImageID image statuses).

(** The name under which a node reports a container's image. *)
Definition imageName (co : bom.Container) : string :=
  bom.Registry co ++ "/" ++ bom.Repository co ++ ":" ++ bom.Version co.

(** The role of a node: master when it carries one of the two
    control-plane labels. *)
Definition nodeRole (node : corev1.Node) : string :=
  if bool_decide (is_Some (corev1.NodeLabels node !! "node-role.kubernetes.io/control-plane")
                  \/ is_Some (corev1.NodeLabels node !! "node-role.kubernetes.io/master"))
  then "master" else "worker".

(** The secret a reference resolves to: none for an empty name and for
    a lookup that fails. *)
Definition secretFor (c : k8s.cluster) (ns : string) (ref : corev1.LocalObjectReference)
  : option corev1.Secret :=
  if String.eqb (corev1.RefName ref) EmptyString then None
  else okValue (client.SecretsGet (k8s.clientset c) ns (corev1.RefName ref)).

(** A reference whose lookup fails for another reason than not-found
    or forbidden. *)
Definition secretUnreachable (c : k8s.cluster) (ns : string)
    (ref : corev1.LocalObjectReference) : option error :=
  if String.eqb (corev1.RefName ref) EmptyString then None
  else
    match client.SecretsGet (k8s.clientset c) ns (corev1.RefName ref) with
    | Err err => if IsNotFound err || IsForbidden err then None else Some err
    | Ok _ => None
    end.

(** The Docker configuration a secret carries: for a secret of type
    "kubernetes.io/dockerconfigjson" what it holds under
    ".dockerconfigjson", for one of type "kubernetes.io/dockercfg" what
    it holds under ".dockercfg", in the legacy format; nothing for a
    secret of another type or without that key. *)
Definition dockerPayload (secret : corev1.Secret) : option (string * bool) :=
  if String.eqb (corev1.SecretType secret) "kubernetes.io/dockerconfigjson"
  then (fun data => (data, false)) <$> corev1.Data secret !! ".dockerconfigjson"
  else if String.eqb (corev1.SecretType secret) "kubernetes.io/dockercfg"
  then (fun data => (data, true)) <$> corev1.Data secret !! ".dockercfg"
  else None.

(** A secret the merge reads: one that carries a Docker configuration. *)
Definition carriesDockerConfig (secret : corev1.Secret) : bool :=
  match dockerPayload secret with
  | Some _ => true
  | None => false
  end.

(** [result] is what stands in [version] before the first occurrence
    of [marker]. *)
Definition cutBefore (marker version result : string) : Prop :=
  (exists tail, version = result ++ marker ++ tail)
  /\ forall pre post,
       version = pre ++ marker ++ post ->
       (String.length result <= String.length pre)%nat.

(** The credential [MapContainerNamesToDockerAuths] hands back with an
    error. *)
Definition zeroAuth : docker.Auth :=
  {| docker.Username := EmptyString; docker.Password := EmptyString |}.

Definition isMap (entry : value) : bool :=
  match entry with VMap _ => true | _ => false end.

(** The version [findComponentVersion] reads off one container when the
    name sought is empty. *)
Definition containerVersion (c : bom.Container) : string :=
  if Contains (bom.Version c) "rke2" || Contains (bom.Version c) "k3s"
  then k8s.k8sVersions (bom.Version c) else bom.Version c.

(** The namespaces whose pods are listed for a namespace, each with its
    label selector: the core components first, then the addons. *)
Definition podSelectors (openShift : bool) (namespace : string) : list (string * string) :=
  ((if negb (String.eqb namespace EmptyString) && openShift
    then [("openshift-kube-apiserver", "apiserver");
          ("openshift-kube-controller-manager", "kube-controller-manager");
          ("openshift-kube-scheduler", "scheduler");
          ("openshift-etcd", "etcd")]
    else [(namespace, "component")])
   ++ (if String.eqb namespace "kube-system" then [("kube-system", "k8s-app")]
       else if String.eqb namespace EmptyString
       then [(EmptyString, "app.kubernetes.io/component=controller");
             ("kube-system", "k8s-app")]
       else [(namespace, "app.kubernetes.io/component=controller")]))%list.

Section Credentials.
Variable R : MapRange.
Variable GetServerFromDockerAuthKey : string -> result string.
Variable ConfigRead : string -> bool -> result (gmap string docker.Auth).

(** The entries one secret contributes, in the order the loop visits them. *)
Definition secretAuths (secret : corev1.Secret) : list (string * docker.Auth) :=
  match k8s.requiredData secret with
  | Some (Some data, isLegacy) =>
      match ConfigRead data isLegacy with
      | Ok dockerConfigAuths => rangeOf R dockerConfigAuths
      | Err _ => []
      end
  | _ => []
  end.

Definition resolved (entry : string * docker.Auth) : option (string * docker.Auth) :=
  match GetServerFromDockerAuthKey entry.1 with
  | Ok server => Some (server, entry.2)
  | Err _ => None
  end.

(** The credentials a list of entries holds for one registry server. *)
Definition credentialsOf (server : string) (entries : list (string * docker.Auth))
  : list docker.Auth :=
  map snd (List.filter (fun sa => String.eqb sa.1 server) (omap resolved entries)).

(** The credentials the secrets contribute for one registry server,
    earlier secrets first. *)
Definition credentialsFor (server : string) (secrets : list corev1.Secret)
  : list docker.Auth :=
  credentialsOf server (flat_map secretAuths secrets).

End Credentials.

End Spec.

(** ** Concrete collaborators for the examples *)
Module Sample.
Import strings.

(** The image-reference grammar on the one name the examples parse. *)
Definition ParseReference (imageName : string) : result containerimage.Reference :=
  if String.eqb imageName "nginx:1.25" then
    Ok {| containerimage.RegistryStr := "index.docker.io";
          containerimage.RepositoryStr := "library/nginx";
          containerimage.Identifier := "1.25" |}
  else Err (LibraryError "could not parse reference").

(** Auth keys that are bare registry hosts already. *)
Definition GetServerFromDockerAuthKey (key : string) : result string := Ok key.

(** The registry host of an image reference that names one: what stands
    before the first slash. *)
Definition GetServerFromImageRef (imageRef : string) : result string :=
  Ok (k8s.sliceIndex (Split imageRef "/") 0).

Definition alice : docker.Auth :=
  {| docker.Username := "alice"; docker.Password := "a-secret" |}.
Definition bob : docker.Auth :=
  {| docker.Username := "bob"; docker.Password := "b-secret" |}.
Definition carol : docker.Auth :=
  {| docker.Username := "carol"; docker.Password := "c-secret" |}.

(** Three payloads, named rather than spelled out in JSON. *)
Definition ConfigRead (data : string) (isLegacy : bool) : result (gmap string docker.Auth) :=
  if String.eqb data "payload-alice" then Ok {[ "registry.io" := alice ]}
  else if String.eqb data "payload-bob" then Ok {[ "registry.io" := bob ]}
  else if String.eqb data "payload-carol" then Ok {[ "quay.example" := carol ]}
  else Err (LibraryError "malformed payload").



Definition secretOf (name data : string) : corev1.Secret :=
  {| corev1.SecretNamespace := "default";
     corev1.SecretName := name;
     corev1.SecretType := corev1.SecretTypeDockerConfigJson;
     corev1.Data := {[ corev1.DockerConfigJsonKey := data ]} |}.

Definition emptyPodSpec : corev1.PodSpec :=
  {| corev1.Containers := []; corev1.ImagePullSecrets := [];
     corev1.ServiceAccountName := EmptyString |}.

Definition Decode (objectMap : gmap string unstructured.value)
  : corev1.PodSpec * option error := (emptyPodSpec, None).

(** A cluster every call to which fails with [err]. *)
Definition failing (err : error) : k8s.cluster :=
  {| k8s.currentContext := EmptyString;
     k8s.serverVersion := EmptyString;
     k8s.clientset :=
       {| client.NodesList := Err err;
          client.PodsList := fun _ _ => Err err;
          client.NamespacesGet := fun _ => Err err;
          client.ServiceAccountsGet := fun _ _ => Err err;
          client.SecretsGet := fun _ _ => Err err;
          client.ServerVersion := Err err |};
     k8s.cConfigRawConfig := Err err |}.

Definition connectionRefused : error := StatusError ReasonOther "connection refused".

(** 64 bytes, none of them a hexadecimal digit. *)
Definition notHex : string :=
  "zzzzzzzzzzzzzzzzzzzzzzzzzzzzzzzzzzzzzzzzzzzzzzzzzzzzzzzzzzzzzzzz".

Definition hexDigest : string :=
  "0123456789abcdef0123456789abcdef0123456789abcdef0123456789abcdef".

Definition containerEntry (image : string) : unstructured.value :=
  unstructured.VMap {[ "image" := unstructured.VString image ]}.

(** A CronJob with one container, of image "nginx:1.25". *)
Definition cronJob : unstructured.Unstructured :=
  let containers := unstructured.VSlice [containerEntry "nginx:1.25"] in
  let podSpec := unstructured.VMap {[ "containers" := containers ]} in
  let template := unstructured.VMap {[ "spec" := podSpec ]} in
  let jobSpec := unstructured.VMap {[ "template" := template ]} in
  let jobTemplate := unstructured.VMap {[ "spec" := jobSpec ]} in
  let spec := unstructured.VMap {[ "jobTemplate" := jobTemplate ]} in
  {| unstructured.Object :=
       <["kind" := unstructured.VString "CronJob"]> {[ "spec" := spec ]} |}.

(** A Pod with one container of each of the three kinds. *)
Definition threeKindsPod : unstructured.Unstructured :=
  let spec : gmap string unstructured.value :=
    <["containers" := unstructured.VSlice [containerEntry "app:1"]]>
      (<["initContainers" := unstructured.VSlice [containerEntry "init:1"]]>
         {[ "ephemeralContainers" := unstructured.VSlice [containerEntry "debug:1"] ]}) in
  {| unstructured.Object :=
       <["kind" := unstructured.VString "Pod"]> {[ "spec" := unstructured.VMap spec ]} |}.

(** A Service: a kind outside the workload set. *)
Definition service : unstructured.Unstructured :=
  {| unstructured.Object := {[ "kind" := unstructured.VString "Service" ]} |}.

Definition nodeWithKubelet (version : string) : corev1.Node :=
  {| corev1.NodeName := "node-1";
     corev1.NodeLabels := ∅;
     corev1.NodeInfo :=
       {| corev1.KubeletVersion := version;
          corev1.ContainerRuntimeVersion := "containerd://1.7.2";
          corev1.OSImage := "Ubuntu 22.04";
          corev1.KernelVersion := "5.15.0";
          corev1.OperatingSystem := "linux";
          corev1.Architecture := "amd64" |};
     corev1.Images := [] |}.

(** A cluster of one node, no pods, whose server and kubelet report
    [gitVersion]. *)
Definition versioned (gitVersion : string) : k8s.cluster :=
  {| k8s.currentContext := EmptyString;
     k8s.serverVersion := k8s.getClusterServerVersion gitVersion;
     k8s.clientset :=
       {| client.NodesList := Ok [nodeWithKubelet gitVersion];
          client.PodsList := fun _ _ => Ok [];
          client.NamespacesGet := fun _ => Err (StatusError ReasonNotFound "not found");
          client.ServiceAccountsGet :=
            fun _ _ => Err (StatusError ReasonNotFound "not found");
          client.SecretsGet := fun _ _ => Err (StatusError ReasonNotFound "not found");
          client.ServerVersion := Ok gitVersion |};
     k8s.cConfigRawConfig :=
       Ok {| client.Contexts := ∅; client.CurrentContext := EmptyString |} |}.


(** A pod labelled for the selector "component". *)
Definition podLabelled (value : string) : corev1.Pod :=
  {| corev1.PodName := "pod-1";
     corev1.PodNamespace := "kube-system";
     corev1.PodLabels := {[ "component" := value ]};
     corev1.Spec := emptyPodSpec;
     corev1.ContainerStatuses := [] |}.

(** A pod with the one container "nginx:1.25". *)
Definition nginxPod (labels : gmap string string) (statuses : list corev1.ContainerStatus)
  : corev1.Pod :=
  {| corev1.PodName := "pod-2";
     corev1.PodNamespace := "kube-system";
     corev1.PodLabels := labels;
     corev1.Spec :=
       {| corev1.Containers := [{| corev1.Image := "nginx:1.25" |}];
          corev1.ImagePullSecrets := [];
          corev1.ServiceAccountName := EmptyString |};
     corev1.ContainerStatuses := statuses |}.

Definition nginxRunning : corev1.ContainerStatus :=
  {| corev1.StatusImage := "nginx:1.25";
     corev1.ImageID := "index.docker.io/library/nginx@sha256:" ++ hexDigest |}.

(** A registry of two pull secrets; the default service account names
    the first. *)
Definition withSecrets : k8s.cluster :=
  {| k8s.currentContext := EmptyString;
     k8s.serverVersion := "1.27.3";
     k8s.clientset :=
       {| client.NodesList := Ok [];
          client.PodsList := fun _ _ => Ok [];
          client.NamespacesGet := fun _ => Err (StatusError ReasonNotFound "not found");
          client.ServiceAccountsGet :=
            fun _ name =>
              if String.eqb name "default"
              then Ok {| corev1.SAImagePullSecrets := [{| corev1.RefName := "regcred-alice" |}] |}
              else Err (StatusError ReasonNotFound "not found");
          client.SecretsGet :=
            fun _ name =>
              if String.eqb name "regcred-alice"
              then Ok (secretOf "regcred-alice" "payload-alice")
              else if String.eqb name "regcred-bob"
              then Ok (secretOf "regcred-bob" "payload-bob")
              else Err (StatusError ReasonNotFound "not found");
          client.ServerVersion := Ok "v1.27.3" |};
     k8s.cConfigRawConfig :=
       Ok {| client.Contexts :=
               {[ "dev" := {| client.Cluster := "dev-cluster";
                              client.ContextNamespace := "default" |} ]};
             client.CurrentContext := "dev" |} |}.


(** A Deployment without a spec. *)
Definition bareDeployment : unstructured.Unstructured :=
  {| unstructured.Object := {[ "kind" := unstructured.VString "Deployment" ]} |}.

(** A decoder that fills in one container and still reports an error. *)
Definition lenientDecode (objectMap : gmap string unstructured.value)
  : corev1.PodSpec * option error :=
  ({| corev1.Containers := [{| corev1.Image := "nginx:1.25" |}];
      corev1.ImagePullSecrets := [{| corev1.RefName := "regcred-bob" |}];
      corev1.ServiceAccountName := EmptyString |},
   Some (LibraryError "unknown field")).

End Sample.

(** * Properties *)

(** ** Facts about byte strings *)
Section StringFacts.
Import strings.

Lemma append_cons (a : ascii) (s t : string) : String a s ++ t = String a (s ++ t).
Proof. reflexivity. Qed.

Lemma append_nil_l (s : string) : EmptyString ++ s = s.
Proof. reflexivity. Qed.

Lemma append_nil_r (s : string) : s ++ EmptyString = s.
Proof. induction s as [|a s IH]; [done|]. by rewrite append_cons, IH. Qed.

Lemma append_assoc (s t u : string) : (s ++ t) ++ u = s ++ (t ++ u).
Proof. induction s as [|a s IH]; [done|]. by rewrite !append_cons, IH. Qed.

Lemma length_append (s t : string) :
  String.length (s ++ t) = (String.length s + String.length t)%nat.
Proof. induction s as [|a s IH]; [done|]. rewrite append_cons. simpl. by rewrite IH. Qed.

Lemma prefix_byte (c : ascii) (s : string) :
  String.prefix (String c EmptyString) s
  = match s with String d _ => Ascii.eqb c d | EmptyString => false end.
Proof.
  destruct s as [|d s]; simpl; [done|].
  destruct (ascii_dec c d) as [->|Hne].
  - rewrite Ascii.eqb_refl. by destruct s.
  - symmetry. by apply Ascii.eqb_neq.
Qed.

Lemma prefix_cons (a : ascii) (p s : string) :
  String.prefix (String a p) s
  = match s with
    | String b s' => Ascii.eqb a b && String.prefix p s'
    | EmptyString => false
    end.
Proof.
  destruct s as [|b s]; [done|]. cbn [String.prefix].
  destruct (ascii_dec a b) as [->|Hne]; [by rewrite Ascii.eqb_refl|].
  apply Ascii.eqb_neq in Hne. by rewrite Hne.
Qed.

Lemma prefix_append (p s : string) : String.prefix p (p ++ s) = true.
Proof.
  induction p as [|a p IH]; [by destruct s|].
  rewrite append_cons. simpl. by destruct (ascii_dec a a).
Qed.

Lemma Index_cons (d : ascii) (s sub : string) :
  Index (String d s) sub
  = if String.prefix sub (String d s) then 0
    else let i := Index s sub in if i <? 0 then -1 else i + 1.
Proof. done. Qed.

Lemma Index_nil (sub : string) :
  Index EmptyString sub = if String.prefix sub EmptyString then 0 else -1.
Proof. done. Qed.

Lemma Index_lower (s sub : string) : -1 <= Index s sub.
Proof.
  induction s as [|d s IH].
  - rewrite Index_nil. destruct (String.prefix sub EmptyString); lia.
  - rewrite Index_cons. destruct (String.prefix sub (String d s)); [lia|].
    cbv zeta. destruct (Z.ltb_spec (Index s sub) 0); lia.
Qed.

Lemma Contains_byte_cons (c d : ascii) (s : string) :
  Contains (String d s) (String c EmptyString)
  = Ascii.eqb c d || Contains s (String c EmptyString).
Proof.
  unfold Contains. rewrite Index_cons, prefix_byte.
  destruct (Ascii.eqb c d); simpl; [done|].
  pose proof (Index_lower s (String c EmptyString)).
  destruct (Z.ltb_spec (Index s (String c EmptyString)) 0).
  - symmetry. apply Z.leb_gt. lia.
  - transitivity true; [apply Z.leb_le; lia | symmetry; apply Z.leb_le; lia].
Qed.

Lemma Contains_byte_append (c : ascii) (s t : string) :
  Contains (s ++ t) (String c EmptyString)
  = Contains s (String c EmptyString) || Contains t (String c EmptyString).
Proof.
  induction s as [|d s IH]; [done|].
  rewrite append_cons, !Contains_byte_cons, IH. by rewrite orb_assoc.
Qed.

Lemma splitFrom_byte_absent (c : ascii) (s piece : string) :
  Contains s (String c EmptyString) = false ->
  splitFrom (String c EmptyString) 0 piece s = [piece ++ s].
Proof.
  revert piece. induction s as [|d s IH]; intros piece Hno.
  - simpl. by rewrite append_nil_r.
  - rewrite Contains_byte_cons in Hno. apply orb_false_elim in Hno as [Hcd Hs].
    cbn [splitFrom]. rewrite prefix_byte, Hcd. rewrite IH by done.
    by rewrite append_assoc.
Qed.

Lemma splitFrom_byte_first (c : ascii) (pre rest piece : string) :
  Contains pre (String c EmptyString) = false ->
  splitFrom (String c EmptyString) 0 piece (pre ++ String c rest)
  = (piece ++ pre) :: splitFrom (String c EmptyString) 0 EmptyString rest.
Proof.
  revert piece. induction pre as [|d pre IH]; intros piece Hno.
  - rewrite append_nil_l, append_nil_r. cbn [splitFrom].
    by rewrite prefix_byte, Ascii.eqb_refl.
  - rewrite Contains_byte_cons in Hno. apply orb_false_elim in Hno as [Hcd Hs].
    rewrite append_cons. cbn [splitFrom]. rewrite prefix_byte, Hcd.
    rewrite IH by done. by rewrite append_assoc.
Qed.

(** A string without the separator is one piece. *)
Lemma Split_byte_absent (c : ascii) (s : string) :
  Contains s (String c EmptyString) = false -> Split s (String c EmptyString) = [s].
Proof. intros H. unfold Split. by rewrite splitFrom_byte_absent. Qed.

(** The first piece is what stands before the first separator. *)
Lemma Split_byte_first (c : ascii) (pre rest : string) :
  Contains pre (String c EmptyString) = false ->
  Split (pre ++ String c rest) (String c EmptyString)
  = pre :: Split rest (String c EmptyString).
Proof. intros H. unfold Split. by rewrite splitFrom_byte_first. Qed.

Lemma Contains_byte_split (c : ascii) (s : string) :
  Contains s (String c EmptyString) = true ->
  exists pre rest, s = pre ++ String c rest /\ Contains pre (String c EmptyString) = false.
Proof.
  induction s as [|d s IH]; [done|].
  rewrite Contains_byte_cons. destruct (Ascii.eqb c d) eqn:Hcd; simpl.
  - intros _. apply Ascii.eqb_eq in Hcd as ->. by exists EmptyString, s.
  - intros (pre & rest & -> & Hpre)%IH. exists (String d pre), rest. split; [done|].
    by rewrite Contains_byte_cons, Hcd.
Qed.

Lemma splitFrom_length (sep : string) (skip : nat) (piece s : string) :
  (1 <= length (splitFrom sep skip piece s))%nat.
Proof.
  revert skip piece. induction s as [|d s IH]; intros skip piece; [simpl; lia|].
  cbn [splitFrom]. destruct skip; [|apply IH].
  destruct (String.prefix sep (String d s)); [simpl; lia | apply IH].
Qed.

(** Where the string holds the separator, [Split] yields two pieces at
    least: the index 1 the program reads is within range. *)
Lemma Split_byte_length (c : ascii) (s : string) :
  Contains s (String c EmptyString) = true ->
  (2 <= length (Split s (String c EmptyString)))%nat.
Proof.
  intros (pre & rest & -> & Hpre)%Contains_byte_split.
  rewrite Split_byte_first by done.
  pose proof (splitFrom_length (String c EmptyString) 0 EmptyString rest).
  unfold Split. simpl. lia.
Qed.

Lemma TrimPrefix_append (p s : string) : TrimPrefix (p ++ s) p = s.
Proof.
  unfold TrimPrefix, HasPrefix. rewrite prefix_append.
  induction p as [|a p IH]; [done|]. by rewrite append_cons.
Qed.

End StringFacts.

(** ** Facts about loops *)

(** A [range] loop visits exactly the entries of the map. *)
Lemma elem_of_rangeOf (R : MapRange) {A : Type} (m : gmap string A) (k : string) (v : A) :
  (k, v) ∈ rangeOf R m <-> m !! k = Some v.
Proof. rewrite (rangeOf_perm R A m). apply elem_of_map_to_list. Qed.


Lemma find_the_one {A : Type} (P : A -> bool) (l : list A) (x : A) :
  In x l -> P x = true -> (forall y, In y l -> P y = true -> y = x) ->
  List.find P l = Some x.
Proof.
  induction l as [|a l IH]; intros Hin HP Huniq; [done|]. simpl.
  destruct (P a) eqn:Ha.
  - f_equal. apply Huniq; [by left|done].
  - destruct Hin as [->|Hin]; [congruence|].
    apply IH; [done..|]. intros y Hy. apply Huniq. by right.
Qed.

Lemma find_none_all {A : Type} (P : A -> bool) (l : list A) :
  (forall y, In y l -> P y = false) -> List.find P l = None.
Proof.
  induction l as [|a l IH]; intros H; [done|]. simpl.
  rewrite (H a) by (by left). apply IH. intros y Hy. apply H. by right.
Qed.

Lemma foldl_pointwise {A B : Type} (f f' : B -> A -> B) (b : B) (l : list A) :
  (forall b a, f b a = f' b a) -> foldl f b l = foldl f' b l.
Proof.
  intros H. revert b. induction l as [|a l IH]; intros b; simpl; [done|].
  by rewrite H, IH.
Qed.

(** ** Image Reference Parser *)
Section ImageReferenceParser.
Import strings.

Variable ParseReference : string -> result containerimage.Reference.

Lemma extractDigest_no_at (imageId : string) :
  Contains imageId "@" = false ->
  k8s.extractDigest imageId = TrimPrefix imageId "sha256:".
Proof. intros H. unfold k8s.extractDigest. by rewrite H. Qed.

Lemma extractDigest_after_at (pre post tail : string) :
  Contains pre "@" = false ->
  Contains post "@" = false ->
  tail = EmptyString \/ (exists rest, tail = String "@" rest) ->
  k8s.extractDigest (pre ++ String "@" (post ++ tail)) = TrimPrefix post "sha256:".
Proof.
  intros Hpre Hpost Htail. unfold k8s.extractDigest.
  assert (Contains (pre ++ String "@" (post ++ tail)) "@" = true) as ->.
  { rewrite Contains_byte_append, Contains_byte_cons. simpl. by rewrite orb_true_r. }
  rewrite Split_byte_first by done.
  destruct Htail as [->|[rest ->]].
  - rewrite append_nil_r, Split_byte_absent by done. done.
  - rewrite Split_byte_first by done. done.
Qed.

Lemma GetContainer_parsed (imageName imageId : string) (imageRef : containerimage.Reference) :
  ParseReference (Spec.declaredName imageName) = Ok imageRef ->
  k8s.GetContainer ParseReference imageName imageId
  = if (String.length (k8s.extractDigest imageId) =? 64)%nat
    then
      let repoName :=
        if String.eqb (containerimage.RegistryStr imageRef) containerimage.DefaultRegistry
        then TrimPrefix (containerimage.RepositoryStr imageRef) "library/"
        else containerimage.RepositoryStr imageRef in
      Ok {| bom.Repository := repoName;
            bom.Registry := containerimage.RegistryStr imageRef;
            bom.ID := repoName ++ ":" ++ containerimage.Identifier imageRef;
            bom.Digest := k8s.extractDigest imageId;
            bom.Version := containerimage.Identifier imageRef |}
    else Err (ParseDigestError imageId (Spec.declaredName imageName)).
Proof.
  intros Hparse. unfold k8s.GetContainer.
  change (if Contains imageName "@" then k8s.sliceIndex (Split imageName "@") 0 else imageName)
    with (Spec.declaredName imageName).
  rewrite Hparse. change (digest.CanonicalSize * 2)%nat with 64%nat.
  by destruct (String.length (k8s.extractDigest imageId) =? 64)%nat.
Qed.

(** C1, as the code has it.  For a declared name the grammar accepts:
    the digest is the image ID's component after its first "@" (the
    whole image ID when it has none) with a leading "sha256:" removed;
    [GetContainer] fails, with the digest error, exactly when that digest
    is not 64 bytes long, and otherwise returns a container whose
    [Digest] is that string.  What the 64 bytes are is not looked at. *)
Theorem GetContainer_digest_length
    (imageName imageId : string) (imageRef : containerimage.Reference) :
  ParseReference (Spec.declaredName imageName) = Ok imageRef ->
  let imageDigest := k8s.extractDigest imageId in
  (Contains imageId "@" = false -> imageDigest = TrimPrefix imageId "sha256:")
  /\ (forall pre post,
        Contains pre "@" = false -> Contains post "@" = false ->
        imageId = pre ++ "@" ++ post ->
        imageDigest = TrimPrefix post "sha256:")
  /\ (forall pre post rest,
        Contains pre "@" = false -> Contains post "@" = false ->
        imageId = pre ++ "@" ++ post ++ "@" ++ rest ->
        imageDigest = TrimPrefix post "sha256:")
  /\ (forall hex, TrimPrefix ("sha256:" ++ hex) "sha256:" = hex)
  /\ (k8s.GetContainer ParseReference imageName imageId
        = Err (ParseDigestError imageId (Spec.declaredName imageName))
      <-> String.length imageDigest <> 64%nat)
  /\ ((exists container, k8s.GetContainer ParseReference imageName imageId = Ok container)
      <-> String.length imageDigest = 64%nat)
  /\ (forall container,
        k8s.GetContainer ParseReference imageName imageId = Ok container ->
        bom.Digest container = imageDigest).
Proof.
  intros Hparse imageDigest. subst imageDigest.
  split; [apply extractDigest_no_at|].
  split.
  { intros pre post Hpre Hpost ->.
    rewrite <- (append_nil_r post) at 1.
    by apply (extractDigest_after_at pre post EmptyString); [| |left]. }
  split.
  { intros pre post rest Hpre Hpost ->.
    apply (extractDigest_after_at pre post (String "@" rest)); [done..|right; eauto]. }
  split; [intros hex; apply TrimPrefix_append|].
  rewrite (GetContainer_parsed _ _ _ Hparse).
  destruct (Nat.eqb_spec (String.length (k8s.extractDigest imageId)) 64) as [Hlen|Hlen].
  - repeat split; try done.
    + intros _. cbv zeta. eauto.
    + intros container [= <-]. done.
  - repeat split; try done.
    intros [container [=]].
Qed.

End ImageReferenceParser.

(** The grammar accepts "nginx:1.25"; the image ID carries a digest of
    64 hexadecimal digits, and that digest is what the container holds. *)
Lemma GetContainer_digest_length_witness :
  exists container,
    k8s.GetContainer Sample.ParseReference "nginx:1.25"
      ("index.docker.io/library/nginx@sha256:" ++ Sample.hexDigest) = Ok container
    /\ bom.Digest container = Sample.hexDigest.
Proof.
  destruct (GetContainer_digest_length Sample.ParseReference "nginx:1.25"
              ("index.docker.io/library/nginx@sha256:" ++ Sample.hexDigest)
              {| containerimage.RegistryStr := "index.docker.io";
                 containerimage.RepositoryStr := "library/nginx";
                 containerimage.Identifier := "1.25" |}
              eq_refl)
    as (_ & _ & _ & _ & _ & [_ Hok] & Hdigest).
  destruct Hok as [container Hc]; [vm_compute; reflexivity|].
  exists container. split; [exact Hc|].
  rewrite (Hdigest container Hc). vm_compute. reflexivity.
Defined.

(** C1 as stated fails: an image ID whose digest is 64 bytes none of
    which is a hexadecimal digit is not "exactly 64 hex characters", and
    [GetContainer] does not fail on it. *)
Lemma GetContainer_accepts_non_hex :
  Spec.isHex64 (k8s.extractDigest ("sha256:" ++ Sample.notHex)) = false
  /\ k8s.GetContainer Sample.ParseReference "nginx:1.25" ("sha256:" ++ Sample.notHex)
     = Ok {| bom.Repository := "nginx";
             bom.Registry := "index.docker.io";
             bom.ID := "nginx:1.25";
             bom.Digest := Sample.notHex;
             bom.Version := "1.25" |}.
Proof. split; vm_compute; reflexivity. Qed.

(** ** Version trimming *)

(** C7 at a failing input.  A kubelet and a server that report the
    version "v1.27.3-dev": [trimString] removes the final "v" as well
    as the leading one, in [NodeInfo] and in the BOM result, while
    [getCluster] removes the leading "v" alone. *)
Theorem trimString_removes_trailing_v :
  bom.KubeletVersion (k8s.NodeInfo asciiUnicode (Sample.nodeWithKubelet "v1.27.3-dev"))
    = "1.27.3-de"
  /\ bom.ResultVersion <$>
       okValue (k8s.CreateClusterBom asciiUnicode canonicalRange Sample.ParseReference
                  (Sample.versioned "v1.27.3-dev"))
     = Some "1.27.3-de"
  /\ k8s.getClusterServerVersion "v1.27.3-dev" = "1.27.3-dev"
  /\ bom.KubeletVersion (k8s.NodeInfo asciiUnicode (Sample.nodeWithKubelet "v1.27.3+rke2r1"))
     = "1.27.3".
Proof. repeat split; vm_compute; reflexivity. Qed.

(** ** Container status correlation *)
Section Correlation.
Import strings.

Lemma statusMap_lookup (statuses : list corev1.ContainerStatus) (image : string) :
  foldl (fun (m : gmap string string) status =>
           <[corev1.StatusImage status := corev1.ImageID status]> m) ∅ statuses !! image
  = Spec.statusImageID image statuses.
Proof.
  unfold Spec.statusImageID.
  induction statuses as [|st statuses IH] using rev_ind; [done|].
  rewrite foldl_app, List.filter_app, last_app. simpl.
  destruct (String.eqb_spec (corev1.StatusImage st) image) as [->|Hne].
  - by rewrite lookup_insert_eq.
  - rewrite lookup_insert_ne by done. simpl. apply IH.
Qed.

Lemma statusImageID_Some (image id : string) (statuses : list corev1.ContainerStatus) :
  Spec.statusImageID image statuses = Some id ->
  exists st, st ∈ statuses /\ corev1.StatusImage st = image /\ corev1.ImageID st = id.
Proof.
  unfold Spec.statusImageID. intros H.
  destruct (last _) as [st|] eqn:Hlast; [|done]. injection H as <-.
  apply last_Some_elem_of, list_elem_of_In, List.filter_In in Hlast as [Hin Heq].
  exists st. split; [by apply list_elem_of_In|]. split; [by apply String.eqb_eq|done].
Qed.

Lemma statusImageID_None (image : string) (statuses : list corev1.ContainerStatus) :
  Spec.statusImageID image statuses = None <->
  forall st, st ∈ statuses -> corev1.StatusImage st <> image.
Proof.
  unfold Spec.statusImageID. split.
  - intros H st Hin Heq.
    destruct (last _) eqn:Hlast; [done|]. apply last_None in Hlast.
    assert (In st (List.filter (fun st => String.eqb (corev1.StatusImage st) image)
                               statuses)) as Hf.
    { apply List.filter_In. split; [by apply list_elem_of_In|by apply String.eqb_eq]. }
    by rewrite Hlast in Hf.
  - intros H. destruct (last _) as [st|] eqn:Hlast; [|done]. exfalso.
    apply last_Some_elem_of, list_elem_of_In, List.filter_In in Hlast as [Hin Heq].
    apply (H st); [by apply list_elem_of_In|by apply String.eqb_eq].
Qed.

Lemma assign_loop {A : Type} (g : A -> string) (l : list A) (k : nat) (ids : list string) :
  length ids = (k + length l)%nat ->
  foldl (fun ids (ic : nat * A) => <[ic.1 := g ic.2]> ids) ids
        (imap (fun i => pair (k + i)%nat) l)
  = (take k ids ++ map g l)%list.
Proof.
  revert k ids. induction l as [|x l IH]; intros k ids Hlen.
  - simpl in *. rewrite app_nil_r, take_ge; [done|lia].
  - simpl in Hlen. cbn [imap foldl]. 
    rewrite (imap_ext _ (fun i => pair (S k + i)%nat)); last first.
    { intros i y _. simpl. f_equal. lia. }
    rewrite IH by (rewrite length_insert; lia).
    rewrite Nat.add_0_r. cbn [fst snd map].
    rewrite (take_S_r _ _ (g x)); last first.
    { apply list_lookup_insert_eq. lia. }
    rewrite take_insert_ge by lia. by rewrite <- app_assoc.
Qed.

Lemma getImageIDsByStatuses_single (pod : corev1.Pod) (c : corev1.Container)
    (st : corev1.ContainerStatus) :
  corev1.Containers (corev1.Spec pod) = [c] ->
  corev1.ContainerStatuses pod = [st] ->
  k8s.getImageIDsByStatuses pod = [k8s.getImageID (corev1.ImageID st)].
Proof. intros Hc Hs. unfold k8s.getImageIDsByStatuses. by rewrite Hc, Hs. Qed.

Lemma getImageIDsByStatuses_general (pod : corev1.Pod) :
  ((length (corev1.Containers (corev1.Spec pod)) =? 1)
   && (length (corev1.ContainerStatuses pod) =? 1))%nat = false ->
  k8s.getImageIDsByStatuses pod
  = map (fun c =>
           k8s.getImageID (Spec.idSource (corev1.ContainerStatuses pod) (corev1.Image c)))
        (corev1.Containers (corev1.Spec pod)).
Proof.
  intros Hmany. unfold k8s.getImageIDsByStatuses. rewrite Hmany.
  set (statuses := corev1.ContainerStatuses pod).
  set (containers := corev1.Containers (corev1.Spec pod)).
  rewrite (foldl_pointwise _
    (fun ids (ic : nat * corev1.Container) =>
       <[ic.1 := k8s.getImageID (Spec.idSource statuses (corev1.Image ic.2))]> ids)).
  - change (imap pair containers) with (imap (fun i => pair (0 + i)%nat) containers).
    rewrite (assign_loop
               (fun c => k8s.getImageID (Spec.idSource statuses (corev1.Image c)))
               containers 0) by (by rewrite length_replicate).
    done.
  - intros ids [i c]. unfold Spec.idSource. rewrite statusMap_lookup.
    by destruct (Spec.statusImageID _ _).
Qed.

(** One image ID per spec container: the index the first loop of
    [PodInfo] reads is within range. *)
Lemma getImageIDsByStatuses_length (pod : corev1.Pod) :
  length (k8s.getImageIDsByStatuses pod) = length (corev1.Containers (corev1.Spec pod)).
Proof.
  destruct ((length (corev1.Containers (corev1.Spec pod)) =? 1)
            && (length (corev1.ContainerStatuses pod) =? 1))%nat eqn:Hone.
  - apply andb_true_iff in Hone as [Hc%Nat.eqb_eq Hs%Nat.eqb_eq].
    destruct (corev1.Containers (corev1.Spec pod)) as [|c [|]] eqn:Ec; try done.
    destruct (corev1.ContainerStatuses pod) as [|st [|]] eqn:Es; try done.
    by rewrite (getImageIDsByStatuses_single pod c st Ec Es).
  - by rewrite (getImageIDsByStatuses_general pod Hone), length_map.
Qed.

(** C8.  [getImageIDsByStatuses] yields one image ID per spec container.
    With exactly one spec container and exactly one status entry, the
    status's image ID is taken by position, whatever the two image
    strings are.  Otherwise a container whose declared image equals the
    image of some status entry gets such an entry's image ID (the last
    one's), and a container no status entry matches gets its declared
    image as the source.  Each source passes through [getImageID]. *)
Theorem getImageIDsByStatuses_correlation (pod : corev1.Pod) :
  let containers := corev1.Containers (corev1.Spec pod) in
  let statuses := corev1.ContainerStatuses pod in
  let ids := k8s.getImageIDsByStatuses pod in
  length ids = length containers
  /\ (forall c st, containers = [c] -> statuses = [st] ->
        ids = [k8s.getImageID (corev1.ImageID st)])
  /\ (~ (length containers = 1%nat /\ length statuses = 1%nat) ->
      forall i c, containers !! i = Some c ->
        (forall id, Spec.statusImageID (corev1.Image c) statuses = Some id ->
           ids !! i = Some (k8s.getImageID id))
        /\ ((exists st, st ∈ statuses /\ corev1.StatusImage st = corev1.Image c) ->
            exists st, st ∈ statuses /\ corev1.StatusImage st = corev1.Image c
                       /\ ids !! i = Some (k8s.getImageID (corev1.ImageID st)))
        /\ ((forall st, st ∈ statuses -> corev1.StatusImage st <> corev1.Image c) ->
            ids !! i = Some (k8s.getImageID (corev1.Image c)))).
Proof.
  intros containers statuses ids.
  destruct ((length containers =? 1) && (length statuses =? 1))%nat eqn:Hone.
  - apply andb_true_iff in Hone as [Hc%Nat.eqb_eq Hs%Nat.eqb_eq].
    destruct containers as [|c [|]] eqn:Ec; try done.
    destruct statuses as [|st [|]] eqn:Es; try done.
    subst ids. rewrite (getImageIDsByStatuses_single pod c st Ec Es).
    split; [done|]. split; [by intros ?? [= <-] [= <-]|].
    intros []. done.
  - subst ids. rewrite (getImageIDsByStatuses_general pod Hone).
    fold containers statuses.
    split; [by rewrite length_map|]. split.
    { intros c st Ec Es. rewrite Ec, Es in Hone. done. }
    intros _ i c Hi.
    assert (forall src, Spec.idSource statuses (corev1.Image c) = src ->
              map (fun c => k8s.getImageID (Spec.idSource statuses (corev1.Image c)))
                  containers !! i
              = Some (k8s.getImageID src)) as Hat.
    { intros src <-. by rewrite list_lookup_fmap, Hi. }
    split; [|split].
    + intros id Hid. apply Hat. unfold Spec.idSource. by rewrite Hid.
    + intros [st0 [Hin0 Heq0]].
      destruct (Spec.statusImageID (corev1.Image c) statuses) as [id|] eqn:Hid.
      * destruct (statusImageID_Some _ _ _ Hid) as (st & Hin & Heq & <-).
        exists st. repeat split; [done..|]. apply Hat. unfold Spec.idSource. by rewrite Hid.
      * exfalso. eapply statusImageID_None; eauto.
    + intros Hnone%statusImageID_None. apply Hat. unfold Spec.idSource. by rewrite Hnone.
Qed.
End Correlation.

(** ** BOM Assembler *)
Section Assembler.
Import strings.

Variable U : Unicode.
Variable R : MapRange.
Variable ParseReference : string -> result containerimage.Reference.

Lemma PodInfo_returns (pod : corev1.Pod) (labelSelector : string) :
  exists component,
    k8s.PodInfo U R ParseReference pod labelSelector = Ok component
    /\ bom.Namespace component = corev1.PodNamespace pod
    /\ bom.Containers component
       = k8s.podContainers ParseReference pod (k8s.getImageIDsByStatuses pod).
Proof.
  unfold k8s.PodInfo.
  destruct (String.eqb _ EmptyString); [destruct (k8s.CoreComponentPropertyType !! _)|];
    eexists; (split; [reflexivity|]); done.
Qed.

Lemma elem_of_podContainers (pod : corev1.Pod) (ids : list string) (container : bom.Container) :
  container ∈ k8s.podContainers ParseReference pod ids <->
  exists i s, corev1.Containers (corev1.Spec pod) !! i = Some s
              /\ k8s.GetContainer ParseReference (corev1.Image s) (k8s.sliceIndex ids i)
                 = Ok container.
Proof.
  unfold k8s.podContainers. rewrite list_elem_of_omap. split.
  - intros [[i s] [Hin Hf]]. apply elem_of_lookup_imap in Hin as (j & y & [= -> ->] & Hj).
    exists j, y. split; [done|]. simpl in Hf.
    by destruct (k8s.GetContainer _ _ _) as [c|]; simplify_eq.
  - intros (i & s & Hi & Hc). exists (i, s). split.
    + apply elem_of_lookup_imap. by exists i, s.
    + simpl. by rewrite Hc.
Qed.

Lemma collectComponents_returns (c : k8s.cluster) (labels : gmap string string) :
  exists components, k8s.collectComponents U R ParseReference c labels = Ok components.
Proof. unfold k8s.collectComponents. eauto. Qed.

Lemma collectComponents_includes (c : k8s.cluster) (labels : gmap string string)
    (namespace labelSelector : string) (pods : list corev1.Pod) (pod : corev1.Pod)
    (component : bom.Component) (components : list bom.Component) :
  labels !! namespace = Some labelSelector ->
  client.PodsList (k8s.clientset c) namespace labelSelector = Ok pods ->
  pod ∈ pods ->
  k8s.PodInfo U R ParseReference pod labelSelector = Ok component ->
  k8s.collectComponents U R ParseReference c labels = Ok components ->
  component ∈ components.
Proof.
  intros Hsel Hlist Hpod Hinfo [= <-].
  apply list_elem_of_In, in_flat_map. exists (namespace, labelSelector).
  split; [by apply list_elem_of_In, (elem_of_rangeOf R)|].
  unfold k8s.getPodsInfo. rewrite Hlist.
  apply in_flat_map. exists pod. split; [by apply list_elem_of_In|].
  rewrite Hinfo. by left.
Qed.

(** C10.  [PodInfo] returns a component and no error, for every pod and
    label selector.  Every index it reads in the image IDs is within
    range.  Its containers are the spec containers that parse;
    one that does not parse is left out, so that a pod none of whose
    containers parses yields a component without containers; and
    [collectComponents] puts the component of every pod it lists into
    the list it returns. *)
Theorem PodInfo_never_fails (pod : corev1.Pod) (labelSelector : string) :
  exists component,
    k8s.PodInfo U R ParseReference pod labelSelector = Ok component
    /\ (forall i s, corev1.Containers (corev1.Spec pod) !! i = Some s ->
          is_Some (k8s.getImageIDsByStatuses pod !! i))
    /\ (forall container,
          container ∈ bom.Containers component <->
          exists i s, corev1.Containers (corev1.Spec pod) !! i = Some s
                      /\ k8s.GetContainer ParseReference (corev1.Image s)
                           (k8s.sliceIndex (k8s.getImageIDsByStatuses pod) i) = Ok container)
    /\ ((forall i s, corev1.Containers (corev1.Spec pod) !! i = Some s ->
           exists err, k8s.GetContainer ParseReference (corev1.Image s)
                         (k8s.sliceIndex (k8s.getImageIDsByStatuses pod) i) = Err err) ->
        bom.Containers component = [])
    /\ (forall c labels namespace pods,
          labels !! namespace = Some labelSelector ->
          client.PodsList (k8s.clientset c) namespace labelSelector = Ok pods ->
          pod ∈ pods ->
          exists components,
            k8s.collectComponents U R ParseReference c labels = Ok components
            /\ component ∈ components).
Proof.
  destruct (PodInfo_returns pod labelSelector) as (component & Hinfo & _ & Hcs).
  exists component. split; [done|]. split; [|split; [|split]].
  - intros i s Hi. apply lookup_lt_is_Some. rewrite getImageIDsByStatuses_length.
    by apply lookup_lt_Some in Hi.
  - intros container. rewrite Hcs. apply elem_of_podContainers.
  - intros Hfail. rewrite Hcs. 
    destruct (k8s.podContainers _ _ _) as [|container rest] eqn:E; [done|]. exfalso.
    assert (container
            ∈ k8s.podContainers ParseReference pod (k8s.getImageIDsByStatuses pod)) as Hin
      by (rewrite E; apply list_elem_of_here).
    apply elem_of_podContainers in Hin as (i & s & Hi & Hok).
    destruct (Hfail i s Hi) as [err Herr]. congruence.
  - intros c labels namespace pods Hsel Hlist Hpod.
    destruct (collectComponents_returns c labels) as [components Hcomps].
    exists components. split; [done|]. by eapply collectComponents_includes.
Qed.





End Assembler.


(** ** Component Namer *)
Section Namer.
Import strings.
Variable U : Unicode.
Variable R : MapRange.
Variable ParseReference : string -> result containerimage.Reference.

Lemma UpstreamOrgName_lookup (org components : string) :
  k8s.UpstreamOrgName !! org = Some components <-> (org, components) ∈ Spec.orgTable.
Proof.
  symmetry. apply (elem_of_list_to_map (M := gmap string)).
  apply (bool_decide_unpack _). vm_compute. exact I.
Qed.

Lemma ownsComponent_iff (components name : string) :
  k8s.ownsComponent U components name = true <->
  exists member, member ∈ Split components "," /\ TrimSpace U member = ToLower U name.
Proof.
  unfold k8s.ownsComponent. rewrite existsb_exists. split.
  - intros (member & Hin & Heq). exists member.
    split; [by apply list_elem_of_In|by apply String.eqb_eq].
  - intros (member & Hin & Heq). exists member.
    split; [by apply list_elem_of_In|by apply String.eqb_eq].
Qed.

(** The members of the table are lower-case names without blanks. *)
Lemma orgTable_members (org components member : string) :
  (org, components) ∈ Spec.orgTable -> member ∈ Split components "," ->
  TrimSpace U member = member /\ ToLower U member = member.
Proof.
  intros Horg Hmember. unfold Spec.orgTable in Horg.
  repeat (apply elem_of_cons in Horg as [[= -> ->]|Horg]); [..|by apply elem_of_nil in Horg].
  all: vm_compute in Hmember.
  all: repeat (apply elem_of_cons in Hmember as [->|Hmember]);
    [..|by apply elem_of_nil in Hmember].
  all: split; vm_compute; reflexivity.
Qed.


Lemma ownsComponent_table (org components name : string) :
  (org, components) ∈ Spec.orgTable ->
  k8s.ownsComponent U components name = true <-> Spec.ownedBy U components name.
Proof.
  intros Horg. rewrite ownsComponent_iff. unfold Spec.ownedBy.
  split; intros (member & Hin & Heq); exists member; (split; [done|]);
    destruct (orgTable_members _ _ _ Horg Hin) as [Htrim Hlower]; congruence.
Qed.

(** No name is owned by two organizations. *)
Lemma owner_unique (org1 components1 org2 components2 name : string) :
  (org1, components1) ∈ Spec.orgTable -> (org2, components2) ∈ Spec.orgTable ->
  k8s.ownsComponent U components1 name = true ->
  k8s.ownsComponent U components2 name = true ->
  (org1, components1) = (org2, components2).
Proof.
  intros Horg1 Horg2 (m1 & Hin1 & Heq1)%ownsComponent_iff (m2 & Hin2 & Heq2)%ownsComponent_iff.
  destruct (orgTable_members _ _ _ Horg1 Hin1) as [Htrim1 _].
  destruct (orgTable_members _ _ _ Horg2 Hin2) as [Htrim2 _].
  assert (m2 = m1) as -> by congruence. clear Heq1 Heq2 Htrim1 Htrim2.
  unfold Spec.orgTable in Horg1, Horg2.
  repeat (apply elem_of_cons in Horg1 as [[= -> ->]|Horg1]); [..|by apply elem_of_nil in Horg1].
  all: repeat (apply elem_of_cons in Horg2 as [[= -> ->]|Horg2]);
    [..|by apply elem_of_nil in Horg2].
  all: try reflexivity.
  all: exfalso; vm_compute in Hin1, Hin2.
  all: repeat (apply elem_of_cons in Hin2 as [->|Hin2]); [..|by apply elem_of_nil in Hin2].
  all: repeat (apply elem_of_cons in Hin1 as [[=]|Hin1]); by apply elem_of_nil in Hin1.
Qed.

Lemma In_rangeOf_orgTable (org components : string) :
  In (org, components) (rangeOf R k8s.UpstreamOrgName) <-> (org, components) ∈ Spec.orgTable.
Proof. by rewrite <- list_elem_of_In, (elem_of_rangeOf R), UpstreamOrgName_lookup. Qed.

Lemma upstreamOrgByName_owner (org name : string) :
  Spec.owns U org name -> k8s.upstreamOrgByName U R name = org.
Proof.
  intros (components & Hlookup%UpstreamOrgName_lookup & Howned).
  unfold k8s.upstreamOrgByName.
  rewrite (find_the_one _ _ (org, components)); [done|..].
  - by apply In_rangeOf_orgTable.
  - by apply (ownsComponent_table org).
  - intros [org' components'] Hin%In_rangeOf_orgTable Hy. simpl in Hy.
    eapply owner_unique; [done..|]. by apply (ownsComponent_table org).
Qed.

Lemma upstreamOrgByName_none (name : string) :
  (forall org, ~ Spec.owns U org name) -> k8s.upstreamOrgByName U R name = EmptyString.
Proof.
  intros Hnone. unfold k8s.upstreamOrgByName.
  rewrite find_none_all; [done|].
  intros [org components] Hin%In_rangeOf_orgTable. simpl.
  apply not_true_is_false. intros Hown%(ownsComponent_table org); [|done].
  apply (Hnone org). exists components. split; [by apply UpstreamOrgName_lookup|done].
Qed.

Lemma owns_nonempty (org name : string) :
  Spec.owns U org name -> (0 <? String.length org)%nat = true.
Proof.
  intros (components & Hlookup%UpstreamOrgName_lookup & _). unfold Spec.orgTable in Hlookup.
  repeat (apply elem_of_cons in Hlookup as [[= -> ->]|Hlookup]);
    [done..|by apply elem_of_nil in Hlookup].
Qed.

Lemma PodInfo_named_by_selector (pod : corev1.Pod) (labelSelector : string) :
  k8s.mapIndex (corev1.PodLabels pod) "app.kubernetes.io/name" = EmptyString ->
  exists component,
    k8s.PodInfo U R ParseReference pod labelSelector = Ok component
    /\ (let name :=
          k8s.upstreamRepoByName (k8s.mapIndex (corev1.PodLabels pod) labelSelector) in
        let orgName := k8s.upstreamOrgByName U R name in
        bom.Name component
        = (if (0 <? String.length orgName)%nat then orgName ++ "/" ++ name else name)
        /\ forall val, k8s.CoreComponentPropertyType !! name = Some val ->
                       bom.Properties component !! "Type" = Some val).
Proof.
  intros Hname. unfold k8s.PodInfo. rewrite Hname. cbn [String.eqb].
  destruct (k8s.CoreComponentPropertyType !! _) as [val|] eqn:Htype.
  - eexists. split; [reflexivity|]. cbn [bom.Name bom.Properties]. split; [done|].
    intros val' [= <-]. by rewrite lookup_insert_eq.
  - eexists. split; [reflexivity|]. cbn [bom.Name bom.Properties]. split; [done|]. done.
Qed.

(** C6.  A pod without a name label is named from the label selector's
    value: the value is mapped through the repo-name table (staying as
    it is when the table lacks it); when the result equals, case apart,
    a member of some organization's list, the organization is prefixed
    as org/name, and otherwise the name stays; the type is the one the
    core-component table gives.  The value "api server" becomes
    "k8s.io/apiserver" of type "controlPlane". *)
Theorem component_naming (pod : corev1.Pod) (labelSelector : string) :
  k8s.mapIndex (corev1.PodLabels pod) "app.kubernetes.io/name" = EmptyString ->
  let raw := k8s.mapIndex (corev1.PodLabels pod) labelSelector in
  let name := default raw (k8s.UpstreamRepoName !! raw) in
  exists component,
    k8s.PodInfo U R ParseReference pod labelSelector = Ok component
    /\ k8s.upstreamRepoByName raw = name
    /\ (forall org, Spec.owns U org name ->
          k8s.upstreamOrgByName U R name = org
          /\ bom.Name component = org ++ "/" ++ name)
    /\ ((forall org, ~ Spec.owns U org name) ->
          k8s.upstreamOrgByName U R name = EmptyString
          /\ bom.Name component = name)
    /\ (forall val, k8s.CoreComponentPropertyType !! name = Some val ->
          bom.Properties component !! "Type" = Some val)
    /\ (raw = "api server" ->
          name = "apiserver"
          /\ bom.Name component = "k8s.io/apiserver"
          /\ bom.Properties component !! "Type" = Some "controlPlane").
Proof.
  intros Hname raw name.
  destruct (PodInfo_named_by_selector pod labelSelector Hname)
    as (component & Hinfo & Hn & Htype).
  assert (k8s.upstreamRepoByName raw = name) as Hrepo.
  { unfold k8s.upstreamRepoByName, name. by destruct (k8s.UpstreamRepoName !! raw). }
  fold raw in Hn, Htype. rewrite Hrepo in Hn, Htype.
  assert (forall org, Spec.owns U org name ->
            k8s.upstreamOrgByName U R name = org
            /\ bom.Name component = org ++ "/" ++ name) as Howned.
  { intros org Hown. rewrite Hn, (upstreamOrgByName_owner org name Hown).
    by rewrite (owns_nonempty org name Hown). }
  exists component.
  split; [done|]. split; [done|]. split; [done|].
  split; [|split; [done|]].
  { intros Hnone. split; [by apply upstreamOrgByName_none|].
    rewrite Hn, upstreamOrgByName_none by done. done. }
  intros Hraw.
  assert (name = "apiserver") as Hn' by (unfold name; by rewrite Hraw).
  split; [done|]. split.
  - rewrite Hn' in Howned. apply (Howned "k8s.io").
    eexists. split; [reflexivity|]. exists "apiserver". split; [|done].
    vm_compute. by repeat constructor.
  - apply Htype. by rewrite Hn'.
Qed.

End Namer.

(** A pod labelled component = "api server", listed by the selector
    "component". *)
Lemma component_naming_witness :
  exists component,
    k8s.PodInfo asciiUnicode canonicalRange Sample.ParseReference
      (Sample.podLabelled "api server") "component" = Ok component
    /\ bom.Name component = "k8s.io/apiserver"
    /\ bom.Properties component !! "Type" = Some "controlPlane".
Proof.
  destruct (component_naming asciiUnicode canonicalRange Sample.ParseReference
              (Sample.podLabelled "api server") "component" eq_refl)
    as (component & Hinfo & _ & _ & _ & _ & Hexample).
  exists component. split; [exact Hinfo|].
  destruct Hexample as (_ & Hname & Htype); [vm_compute; reflexivity|].
  split; [exact Hname|exact Htype].
Defined.

(** ** Credential Resolver: merging *)
Section CredentialMerge.
Import strings.

Variable R : MapRange.
Variable GetServerFromDockerAuthKey : string -> result string.
Variable ConfigRead : string -> bool -> result (gmap string docker.Auth).



Lemma credentialsOf_app (server : string) (l l' : list (string * docker.Auth)) :
  Spec.credentialsOf GetServerFromDockerAuthKey server (l ++ l')
  = (Spec.credentialsOf GetServerFromDockerAuthKey server l
     ++ Spec.credentialsOf GetServerFromDockerAuthKey server l')%list.
Proof. unfold Spec.credentialsOf. by rewrite omap_app, List.filter_app, map_app. Qed.








End CredentialMerge.



(** ** Credential Resolver: matching *)
Section CredentialLookup.
Import strings.
Variable R : MapRange.
Variable GetServerFromImageRef : string -> result string.

Lemma elem_of_GetWildcardServers (auths : gmap string docker.Auth) (server : string) :
  In server (k8s.GetWildcardServers R auths) <->
  is_Some (auths !! server) /\ HasPrefix server "*." = true.
Proof.
  unfold k8s.GetWildcardServers. rewrite List.filter_In, in_map_iff. split.
  - intros [([k a] & <- & Hin) Hprefix]. split; [|done].
    exists a. by apply (elem_of_rangeOf R), list_elem_of_In.
  - intros [[a Ha] Hprefix]. split; [|done]. exists (server, a). split; [done|].
    by apply list_elem_of_In, (elem_of_rangeOf R).
Qed.

Lemma HasPrefix_wildcard (domain : string) :
  HasPrefix domain "*." = true -> exists rest, domain = String "*" (String "." rest).
Proof.
  unfold HasPrefix. rewrite prefix_cons. destruct domain as [|c domain]; [done|].
  rewrite prefix_cons. destruct domain as [|d rest]; [by rewrite andb_false_r|].
  intros [Hc [Hd _]%andb_true_iff]%andb_true_iff.
  apply Ascii.eqb_eq in Hc as <-. apply Ascii.eqb_eq in Hd as <-. eauto.
Qed.

(** With the wildcard in front, removing the first "*" leaves the rest
    of the key. *)
Lemma Replace_wildcard (domain : string) :
  HasPrefix domain "*." = true -> Replace domain "*" EmptyString 1 = sliceFrom 1 domain.
Proof. by intros [rest ->]%HasPrefix_wildcard. Qed.

Lemma wildcard_nonempty (domain : string) :
  HasPrefix domain "*." = true -> (0 <? String.length domain)%nat = true.
Proof. by intros [rest ->]%HasPrefix_wildcard. Qed.

Lemma matchSubDomain_found (wildcardServers : list string) (subDomain domain : string) :
  In domain wildcardServers ->
  HasSuffix subDomain (Replace domain "*" EmptyString 1) = true ->
  exists found,
    k8s.matchSubDomain wildcardServers subDomain = found
    /\ In found wildcardServers
    /\ HasSuffix subDomain (Replace found "*" EmptyString 1) = true.
Proof.
  induction wildcardServers as [|d rest IH]; intros Hin Hsuffix; [done|]. simpl.
  destruct (HasSuffix subDomain (Replace d "*" EmptyString 1)) eqn:Hd.
  - exists d. split; [done|]. split; [by left|done].
  - destruct Hin as [->|Hin]; [congruence|].
    destruct (IH Hin Hsuffix) as (found & Hfound & Hin' & Hs).
    exists found. split; [done|]. split; [by right|done].
Qed.

Lemma matchSubDomain_none (wildcardServers : list string) (subDomain : string) :
  (forall domain, In domain wildcardServers ->
     HasSuffix subDomain (Replace domain "*" EmptyString 1) = false) ->
  k8s.matchSubDomain wildcardServers subDomain = EmptyString.
Proof.
  induction wildcardServers as [|d rest IH]; intros Hnone; [done|]. simpl.
  rewrite (Hnone d) by (by left). apply IH. intros domain Hin. apply Hnone. by right.
Qed.

Lemma wildcardMatch_code (key host : string) :
  Spec.wildcardMatch key host = true <->
  HasPrefix key "*." = true /\ HasSuffix host (Replace key "*" EmptyString 1) = true.
Proof.
  unfold Spec.wildcardMatch. rewrite andb_true_iff.
  split; intros [Hp Hs]; (split; [done|]).
  - by rewrite Replace_wildcard.
  - by rewrite <- Replace_wildcard.
Qed.

(** C5.  For an image reference whose registry server is determined:
    an entry under the server itself is returned; failing that, when
    some key with the "*." prefix is, with its "*" removed, a suffix of
    the server, the entry of such a key is returned; and when there is
    neither, no credential and no error are returned.  Against a map
    with the one key "*.example.com", "sub.example.com" resolves to its
    entry and "other.org" to nothing. *)
Theorem MapContainerNamesToDockerAuths_resolution (imageRef server : string)
    (auths : gmap string docker.Auth) :
  GetServerFromImageRef imageRef = Ok server ->
  let resolved := k8s.MapContainerNamesToDockerAuths R GetServerFromImageRef imageRef auths in
  (forall auth, auths !! server = Some auth -> resolved = (Some auth, None))
  /\ (auths !! server = None ->
      (exists key, is_Some (auths !! key) /\ Spec.wildcardMatch key server = true) ->
      exists key auth,
        auths !! key = Some auth
        /\ Spec.wildcardMatch key server = true
        /\ resolved = (Some auth, None))
  /\ (auths !! server = None ->
      (forall key, is_Some (auths !! key) -> Spec.wildcardMatch key server = false) ->
      resolved = (None, None))
  /\ (forall auth, auths = {[ "*.example.com" := auth ]} ->
        (server = "sub.example.com" -> resolved = (Some auth, None))
        /\ (server = "other.org" -> resolved = (None, None))).
Proof.
  intros Hserver resolved.
  assert (forall auth, auths !! server = Some auth -> resolved = (Some auth, None)) as Hexact.
  { intros auth Hauth. unfold resolved, k8s.MapContainerNamesToDockerAuths.
    by rewrite Hserver, Hauth. }
  assert (auths !! server = None ->
          (exists key, is_Some (auths !! key) /\ Spec.wildcardMatch key server = true) ->
          exists key auth,
            auths !! key = Some auth
            /\ Spec.wildcardMatch key server = true
            /\ resolved = (Some auth, None)) as Hwild.
  { intros Hnone (key & Hkey & [Hprefix Hsuffix]%wildcardMatch_code).
    assert (In key (k8s.GetWildcardServers R auths)) as Hin
      by (by apply elem_of_GetWildcardServers).
    destruct (matchSubDomain_found _ _ _ Hin Hsuffix) as (found & Hfound & Hin' & Hs).
    apply elem_of_GetWildcardServers in Hin' as [[auth Hauth] Hp].
    exists found, auth. split; [done|]. split; [by apply wildcardMatch_code|].
    assert ((0 <? length (k8s.GetWildcardServers R auths))%nat = true) as Hlen.
    { destruct (k8s.GetWildcardServers R auths); [destruct Hin|done]. }
    unfold resolved, k8s.MapContainerNamesToDockerAuths. cbv zeta.
    by rewrite Hserver, Hnone, Hlen, Hfound, (wildcard_nonempty _ Hp), Hauth. }
  assert (auths !! server = None ->
          (forall key, is_Some (auths !! key) -> Spec.wildcardMatch key server = false) ->
          resolved = (None, None)) as Hmiss.
  { intros Hnone Hno. unfold resolved, k8s.MapContainerNamesToDockerAuths.
    rewrite Hserver, Hnone.
    rewrite matchSubDomain_none.
    - by destruct (0 <? length _)%nat.
    - intros domain [Hsome Hp]%elem_of_GetWildcardServers.
      apply not_true_is_false. intros Hs.
      assert (Spec.wildcardMatch domain server = true) as Hm by (by apply wildcardMatch_code).
      by rewrite (Hno domain Hsome) in Hm. }
  split; [done|]. split; [done|]. split; [done|].
  intros auth Hauths. split; intros ->.
  - destruct Hwild as (key & auth' & Hkey & _ & Hres).
    + subst auths. by apply lookup_singleton_ne.
    + exists "*.example.com". split; [|done]. subst auths. by rewrite lookup_singleton_eq.
    + subst auths. apply lookup_singleton_Some in Hkey as [_ <-]. done.
  - apply Hmiss.
    + subst auths. by apply lookup_singleton_ne.
    + intros key [a Ha]. subst auths. apply lookup_singleton_Some in Ha as [<- _]. done.
Qed.

End CredentialLookup.

(** The two hosts of the example, behind image references. *)
Lemma MapContainerNamesToDockerAuths_resolution_witness :
  k8s.MapContainerNamesToDockerAuths canonicalRange Sample.GetServerFromImageRef
    "sub.example.com/team/app:1" {[ "*.example.com" := Sample.alice ]}
  = (Some Sample.alice, None)
  /\ k8s.MapContainerNamesToDockerAuths canonicalRange Sample.GetServerFromImageRef
       "other.org/team/app:1" {[ "*.example.com" := Sample.alice ]}
     = (None, None).
Proof.
  split.
  - destruct (MapContainerNamesToDockerAuths_resolution canonicalRange
                Sample.GetServerFromImageRef "sub.example.com/team/app:1" "sub.example.com"
                {[ "*.example.com" := Sample.alice ]} eq_refl) as (_ & _ & _ & Hexample).
    destruct (Hexample Sample.alice eq_refl) as [Hsub _]. exact (Hsub eq_refl).
  - destruct (MapContainerNamesToDockerAuths_resolution canonicalRange
                Sample.GetServerFromImageRef "other.org/team/app:1" "other.org"
                {[ "*.example.com" := Sample.alice ]} eq_refl) as (_ & _ & _ & Hexample).
    destruct (Hexample Sample.alice eq_refl) as [_ Hother]. exact (Hother eq_refl).
Defined.

(** ** Credential Resolver: resources without a pod spec *)
Section PullSecrets.
Import strings.
Variable R : MapRange.
Variable GetServerFromDockerAuthKey : string -> result string.
Variable ConfigRead : string -> bool -> result (gmap string docker.Auth).
Variable Decode : gmap string unstructured.value -> corev1.PodSpec * option error.

Lemma getWorkloadPodSpec_default (un : unstructured.Unstructured) :
  unstructured.GetKind un ∉ Spec.workloadKinds ->
  k8s.getWorkloadPodSpec Decode un = Ok None.
Proof.
  intros Hkind. unfold k8s.getWorkloadPodSpec.
  destruct (String.eqb_spec (unstructured.GetKind un) k8s.KindPod) as [Heq|_].
  { exfalso. apply Hkind. rewrite Heq. unfold Spec.workloadKinds. set_solver. }
  destruct (String.eqb_spec (unstructured.GetKind un) k8s.KindCronJob) as [Heq|_].
  { exfalso. apply Hkind. rewrite Heq. unfold Spec.workloadKinds. set_solver. }
  destruct (existsb _ _) eqn:Hex; [|done].
  exfalso. apply existsb_exists in Hex as (kind & Hin & Heq%String.eqb_eq).
  apply Hkind. rewrite Heq. apply list_elem_of_In.
  unfold Spec.workloadKinds. simpl in Hin |- *. tauto.
Qed.

(** C9.  For a resource whose kind is outside the supported workload
    set, [getWorkloadPodSpec] yields no pod spec and no error,
    [ListImagePullSecretsByPodSpec] on no pod spec returns the empty map,
    and so [AuthByResource] returns the empty map and no error. *)
Theorem AuthByResource_unsupported_kind
    (c : k8s.cluster) (resource : unstructured.Unstructured) :
  unstructured.GetKind resource ∉ Spec.workloadKinds ->
  k8s.getWorkloadPodSpec Decode resource = Ok None
  /\ k8s.ListImagePullSecretsByPodSpec R GetServerFromDockerAuthKey ConfigRead c None
       (unstructured.GetNamespace resource) = Ok ∅
  /\ k8s.AuthByResource R GetServerFromDockerAuthKey ConfigRead Decode c resource = Ok ∅.
Proof.
  intros Hkind. split; [by apply getWorkloadPodSpec_default|]. split; [done|].
  unfold k8s.AuthByResource. by rewrite getWorkloadPodSpec_default.
Qed.

End PullSecrets.

(** A Service, on a cluster that answers nothing. *)
Lemma AuthByResource_unsupported_kind_witness :
  k8s.AuthByResource canonicalRange Sample.GetServerFromDockerAuthKey Sample.ConfigRead
    Sample.Decode (Sample.failing Sample.connectionRefused) Sample.service = Ok ∅.
Proof.
  apply (AuthByResource_unsupported_kind canonicalRange Sample.GetServerFromDockerAuthKey
           Sample.ConfigRead Sample.Decode (Sample.failing Sample.connectionRefused)
           Sample.service).
  apply (bool_decide_unpack _). vm_compute. exact I.
Defined.

(** ** Resource-to-Artifact Extractor *)
Section Extractor.
Import strings unstructured.

Lemma NestedString_image (m : gmap string value) :
  NestedString m ["image"]
  = match m !! "image" with
    | None => Ok None
    | Some (VString s) => Ok (Some s)
    | Some _ => Err (AccessorError ["image"])
    end.
Proof.
  unfold NestedString, NestedFieldNoCopy. simpl. by destruct (m !! "image") as [[]|].
Qed.

Lemma containerImages_spec (containers : list value) :
  match artifacts.containerImages containers with
  | Returns (Ok images) =>
      images = omap Spec.imageOf containers /\ forallb Spec.entryReadable containers = true
  | _ => forallb Spec.entryReadable containers = false
  end.
Proof.
  induction containers as [|container rest IH]; [by simpl|].
  cbn [artifacts.containerImages].
  destruct container as [| | | |m|]; try done.
  rewrite NestedString_image.
  change (omap Spec.imageOf (VMap m :: rest))
    with (match Spec.imageOf (VMap m) with
          | Some image => image :: omap Spec.imageOf rest
          | None => omap Spec.imageOf rest
          end).
  cbn [forallb Spec.entryReadable Spec.imageOf].
  destruct (m !! "image") as [[| | |s| |]|]; try done.
  all: destruct (artifacts.containerImages rest) as [[images|]|]; try done.
  all: by destruct IH as [-> ->].
Qed.

Lemma extractImages_spec (resource : Unstructured) (keys : list string) :
  match artifacts.extractImages resource keys with
  | Returns (Ok images) =>
      images = Spec.imagesAt resource keys /\ Spec.listReadable resource keys = true
  | _ => Spec.listReadable resource keys = false
  end.
Proof.
  unfold artifacts.extractImages, NestedSlice, Spec.imagesAt, Spec.listReadable.
  destruct (NestedFieldNoCopy (VMap (Object resource)) keys)
    as [[[| | | | |entries]|]|]; try done.
  apply containerImages_spec.
Qed.

(** C2, as the code has it.  [FromResource] reads the container lists
    under the path the kind selects (spec for a Pod, the doubly nested
    path for a CronJob, spec.template.spec for every other kind), and
    the images of the artifact are those of containers, then those of
    ephemeralContainers, then those of initContainers, each list in its
    own order; an entry without an image adds nothing.  It returns an
    artifact exactly when the three lists and the name are readable.  A
    CronJob with the one container image "nginx:1.25" yields that one
    image. *)
Theorem FromResource_images (resource : Unstructured) :
  let kind := GetKind resource in
  let path := artifacts.nestedKeysOf kind in
  (kind = "Pod" -> path = ["spec"])
  /\ (kind = "CronJob" -> path = ["spec"; "jobTemplate"; "spec"; "template"; "spec"])
  /\ (kind <> "Pod" -> kind <> "CronJob" -> path = ["spec"; "template"; "spec"])
  /\ (forall artifact,
        artifacts.FromResource resource = Returns (Ok artifact) ->
        artifacts.Images artifact
        = (Spec.imagesAt resource (path ++ ["containers"])
           ++ Spec.imagesAt resource (path ++ ["ephemeralContainers"])
           ++ Spec.imagesAt resource (path ++ ["initContainers"]))%list)
  /\ ((exists artifact, artifacts.FromResource resource = Returns (Ok artifact))
      <-> Spec.readable resource = true)
  /\ (forall m, m !! "image" = None ->
        Spec.imageOf (VMap m) = None /\ Spec.entryReadable (VMap m) = true)
  /\ artifacts.Images <$> returnedValue (artifacts.FromResource Sample.cronJob)
     = Some ["nginx:1.25"].
Proof.
  intros kind path.
  split; [by intros ->|]. split; [by intros ->|]. split.
  { intros HnPod HnCron. unfold path, artifacts.nestedKeysOf.
    destruct (String.eqb_spec kind k8s.KindPod); [done|].
    by destruct (String.eqb_spec kind k8s.KindCronJob). }
  assert (match artifacts.FromResource resource with
          | Returns (Ok artifact) =>
              artifacts.Images artifact
              = (Spec.imagesAt resource (path ++ ["containers"])
                 ++ Spec.imagesAt resource (path ++ ["ephemeralContainers"])
                 ++ Spec.imagesAt resource (path ++ ["initContainers"]))%list
              /\ Spec.readable resource = true
          | _ => Spec.readable resource = false
          end) as Hspec.
  { unfold artifacts.FromResource, Spec.readable, Spec.nameReadable. fold kind. fold path.
    pose proof (extractImages_spec resource (path ++ ["containers"])) as Hc.
    pose proof (extractImages_spec resource (path ++ ["ephemeralContainers"])) as He.
    pose proof (extractImages_spec resource (path ++ ["initContainers"])) as Hi.
    destruct (artifacts.extractImages resource (path ++ ["containers"])) as [[cs|]|];
      [destruct Hc as [-> ->]|by rewrite Hc..].
    destruct (artifacts.extractImages resource (path ++ ["ephemeralContainers"])) as [[es|]|];
      [destruct He as [-> ->]|by rewrite He..].
    destruct (artifacts.extractImages resource (path ++ ["initContainers"])) as [[ins|]|];
      [destruct Hi as [-> ->]|by rewrite Hi..].
    destruct (NestedString (Object resource) ["metadata"; "name"]); [|done].
    split; [|done]. cbn [artifacts.Images]. by rewrite app_nil_l, <- app_assoc. }
  split; [|split; [|split]].
  - intros artifact Hok. rewrite Hok in Hspec. apply Hspec.
  - split.
    + intros [artifact Hok]. rewrite Hok in Hspec. apply Hspec.
    + intros Hreadable. destruct (artifacts.FromResource resource) as [[artifact|]|];
        [eauto|congruence..].
  - intros m Hm. unfold Spec.imageOf, Spec.entryReadable. by rewrite Hm.
  - vm_compute. reflexivity.
Qed.

End Extractor.

(** C2 as stated fails: with one container of each kind, the image of the
    ephemeral container comes before the image of the init container. *)
Lemma FromResource_ephemeral_before_init :
  artifacts.Images <$> returnedValue (artifacts.FromResource Sample.threeKindsPod)
    = Some ["app:1"; "debug:1"; "init:1"]
  /\ (Spec.imagesAt Sample.threeKindsPod ["spec"; "containers"]
      ++ Spec.imagesAt Sample.threeKindsPod ["spec"; "initContainers"]
      ++ Spec.imagesAt Sample.threeKindsPod ["spec"; "ephemeralContainers"])%list
     = ["app:1"; "init:1"; "debug:1"].
Proof. split; vm_compute; reflexivity. Qed.


(** ** Versions and image IDs *)
Section Substrings.
Import strings.

Lemma sliceTo_sliceFrom (n : nat) (s : string) : sliceTo n s ++ sliceFrom n s = s.
Proof.
  unfold sliceTo. revert s. induction n as [|n IH]; intros [|c s]; try done.
  simpl. by rewrite append_cons, IH.
Qed.

Lemma sliceTo_S (n : nat) (c : ascii) (s : string) :
  sliceTo (S n) (String c s) = String c (sliceTo n s).
Proof. done. Qed.

Lemma prefix_iff (p s : string) :
  String.prefix p s = true <-> exists rest, s = p ++ rest.
Proof.
  split.
  - revert s. induction p as [|a p IH]; intros s; [by exists s|].
    rewrite prefix_cons. destruct s as [|b s]; [done|].
    intros [->%Ascii.eqb_eq [rest ->]%IH]%andb_true_iff. by exists rest.
  - intros [rest ->]. apply prefix_append.
Qed.

Lemma Index_nonneg_iff (s sub : string) :
  0 <= Index s sub <-> exists pre post, s = pre ++ sub ++ post.
Proof.
  split.
  - induction s as [|d s IH].
    + rewrite Index_nil. destruct (String.prefix sub EmptyString) eqn:Hp; [|lia].
      intros _. apply prefix_iff in Hp as [rest Hrest]. by exists EmptyString, rest.
    + rewrite Index_cons. destruct (String.prefix sub (String d s)) eqn:Hp.
      * intros _. apply prefix_iff in Hp as [rest Hrest]. by exists EmptyString, rest.
      * cbv zeta. destruct (Z.ltb_spec (Index s sub) 0); [lia|]. intros _.
        destruct IH as (pre & post & ->); [lia|]. by exists (String d pre), post.
  - intros (pre & post & ->). induction pre as [|d pre IH].
    + rewrite append_nil_l. destruct (sub ++ post) as [|d s] eqn:E.
      * rewrite Index_nil. rewrite <- E, prefix_append. lia.
      * rewrite Index_cons. rewrite <- E, prefix_append. lia.
    + rewrite append_cons, Index_cons.
      destruct (String.prefix _ _); [lia|]. cbv zeta.
      destruct (Z.ltb_spec (Index (pre ++ sub ++ post) sub) 0); lia.
Qed.

Lemma Contains_iff (s sub : string) :
  Contains s sub = true <-> exists pre post, s = pre ++ sub ++ post.
Proof. unfold Contains. rewrite Z.leb_le. apply Index_nonneg_iff. Qed.

Lemma Contains_empty (s : string) : Contains s EmptyString = true.
Proof. apply Contains_iff. by exists EmptyString, s. Qed.

(** A prefix holds no substring the whole string lacks. *)
Lemma Contains_sliceTo (n : nat) (s sub : string) :
  Contains s sub = false -> Contains (sliceTo n s) sub = false.
Proof.
  intros Hno. apply not_true_is_false. intros (pre & post & Heq)%Contains_iff.
  assert (Contains s sub = true) as Hyes; [|congruence].
  apply Contains_iff. exists pre, (post ++ sliceFrom n s).
  by rewrite <- (sliceTo_sliceFrom n s) at 1; rewrite Heq, !append_assoc.
Qed.

(** What stands before the first occurrence does not hold the substring. *)
Lemma Contains_before_Index (s sub : string) :
  sub <> EmptyString ->
  Contains (sliceTo (Z.to_nat (Index s sub)) s) sub = false.
Proof.
  intros Hsub.
  assert (Contains EmptyString sub = false) as Hnil.
  { unfold Contains. rewrite Index_nil. by destruct sub. }
  induction s as [|d s IH].
  - rewrite Index_nil. by destruct (String.prefix sub EmptyString).
  - rewrite Index_cons. destruct (String.prefix sub (String d s)) eqn:Hp; [done|].
    cbv zeta. destruct (Z.ltb_spec (Index s sub) 0) as [Hneg|Hpos]; [done|].
    replace (Z.to_nat (Index s sub + 1)) with (S (Z.to_nat (Index s sub))) by lia.
    rewrite sliceTo_S. unfold Contains in IH |- *. rewrite Index_cons.
    destruct (String.prefix sub (String d (sliceTo _ s))) eqn:Hp'.
    + exfalso. apply prefix_iff in Hp' as [rest Hrest].
      assert (String.prefix sub (String d s) = true) as Hyes; [|congruence].
      apply prefix_iff. exists (rest ++ sliceFrom (Z.to_nat (Index s sub)) s).
      rewrite <- append_assoc, <- Hrest, append_cons. by rewrite sliceTo_sliceFrom.
    + cbv zeta. apply Z.leb_gt in IH.
      destruct (Z.ltb_spec (Index (sliceTo (Z.to_nat (Index s sub)) s) sub) 0); [done|lia].
Qed.

Lemma sliceTo_O (s : string) : sliceTo 0 s = EmptyString.
Proof. by destruct s. Qed.

(** The index [strings.Index] returns is that of the first occurrence. *)
Lemma Index_cut (s sub : string) :
  0 <= Index s sub -> Spec.cutBefore sub s (sliceTo (Z.to_nat (Index s sub)) s).
Proof.
  induction s as [|d s IH].
  - rewrite Index_nil. destruct (String.prefix sub EmptyString) eqn:Hp; [|lia].
    intros _. apply prefix_iff in Hp as [rest Hrest]. split.
    + exists rest. by rewrite sliceTo_O.
    + intros pre post _. rewrite sliceTo_O. simpl. lia.
  - rewrite Index_cons. destruct (String.prefix sub (String d s)) eqn:Hp.
    + intros _. apply prefix_iff in Hp as [rest Hrest]. split.
      * exists rest. by rewrite sliceTo_O.
      * intros pre post _. rewrite sliceTo_O. simpl. lia.
    + cbv zeta. destruct (Z.ltb_spec (Index s sub) 0) as [Hneg|Hpos]; [lia|]. intros _.
      replace (Z.to_nat (Index s sub + 1)) with (S (Z.to_nat (Index s sub))) by lia.
      rewrite sliceTo_S. destruct (IH Hpos) as [[tail Htail] Hfirst]. split.
      * exists tail. by rewrite append_cons, <- Htail.
      * intros [|d' pre] post Heq.
        -- exfalso. rewrite append_nil_l in Heq.
           assert (String.prefix sub (String d s) = true) as Hyes; [|congruence].
           apply prefix_iff. by exists post.
        -- rewrite append_cons in Heq. injection Heq as _ Heq.
           specialize (Hfirst pre post Heq). simpl. lia.
Qed.

Lemma length_sliceTo (n : nat) (s : string) :
  (String.length (sliceTo n s) <= String.length s)%nat.
Proof.
  rewrite <- (sliceTo_sliceFrom n s) at 2. rewrite length_append. lia.
Qed.

End Substrings.

Section Versions.
Import strings.

Lemma Index_after_plain (c : ascii) (marker base tail : string) :
  Contains base (String c EmptyString) = false ->
  Index (base ++ String c marker ++ tail) (String c marker) = Z.of_nat (String.length base).
Proof.
  intros Hplain. induction base as [|d base IH].
  - rewrite append_nil_l. change (String c marker ++ tail) with (String c (marker ++ tail)).
    rewrite Index_cons. change (String c (marker ++ tail)) with (String c marker ++ tail).
    by rewrite prefix_append.
  - rewrite Contains_byte_cons in Hplain. apply orb_false_elim in Hplain as [Hcd Hbase].
    rewrite append_cons, Index_cons, prefix_cons, Hcd. cbn [andb]. cbv zeta.
    rewrite (IH Hbase). cbn [String.length].
    destruct (Z.ltb_spec (Z.of_nat (String.length base)) 0); lia.
Qed.

Lemma sliceTo_append (base rest : string) : sliceTo (String.length base) (base ++ rest) = base.
Proof.
  induction base as [|d base IH]; [by destruct rest|].
  rewrite append_cons. cbn [String.length]. by rewrite sliceTo_S, IH.
Qed.

Lemma cut_at_marker (marker version : string) :
  Contains version marker = true ->
  Spec.cutBefore marker version (sliceTo (Z.to_nat (Index version marker)) version).
Proof. unfold Contains. intros H%Z.leb_le. by apply Index_cut. Qed.

(** X1.  [k8sVersions] cuts the version at the first occurrence of the
    first distro marker it finds, looking for "+rke2", then "-rke2",
    then "-k3s": what it returns is what stands before that
    occurrence.  So the result is a prefix of the version; it never
    holds "+rke2"; it holds no "-rke2" when the version has no "+rke2",
    and no "-k3s" when the version has neither; a version without
    markers is returned as it is; and a base without "+" followed by
    "+rke2" and anything comes back as the base. *)
Theorem k8sVersions_cut (version : string) :
  (Contains version "+rke2" = true ->
   Spec.cutBefore "+rke2" version (k8s.k8sVersions version))
  /\ (Contains version "+rke2" = false -> Contains version "-rke2" = true ->
      Spec.cutBefore "-rke2" version (k8s.k8sVersions version))
  /\ (Contains version "+rke2" = false -> Contains version "-rke2" = false ->
      Contains version "-k3s" = true ->
      Spec.cutBefore "-k3s" version (k8s.k8sVersions version))
  /\ (exists rest, version = k8s.k8sVersions version ++ rest)
  /\ Contains (k8s.k8sVersions version) "+rke2" = false
  /\ (Contains version "+rke2" = false ->
      Contains (k8s.k8sVersions version) "-rke2" = false)
  /\ (Contains version "+rke2" = false -> Contains version "-rke2" = false ->
      Contains (k8s.k8sVersions version) "-k3s" = false)
  /\ (Contains version "+rke2" = false -> Contains version "-rke2" = false ->
      Contains version "-k3s" = false -> k8s.k8sVersions version = version)
  /\ (forall base tail, Contains base "+" = false ->
        k8s.k8sVersions (base ++ "+rke2" ++ tail) = base).
Proof.
  split; [|split; [|split; [|split; [|split; [|split; [|split; [|split]]]]]]].
  - intros H1. unfold k8s.k8sVersions. rewrite H1. by apply cut_at_marker.
  - intros H1 H2. unfold k8s.k8sVersions. rewrite H1, H2. by apply cut_at_marker.
  - intros H1 H2 H3. unfold k8s.k8sVersions. rewrite H1, H2, H3. by apply cut_at_marker.
  - unfold k8s.k8sVersions.
    repeat match goal with |- context [if ?b then _ else _] => destruct b end.
    1-3: eexists; symmetry; apply sliceTo_sliceFrom.
    exists EmptyString. by rewrite append_nil_r.
  - unfold k8s.k8sVersions. destruct (Contains version "+rke2") eqn:H1.
    { by apply Contains_before_Index. }
    destruct (Contains version "-rke2"); [by apply Contains_sliceTo|].
    destruct (Contains version "-k3s"); [by apply Contains_sliceTo|done].
  - intros H1. unfold k8s.k8sVersions. rewrite H1.
    destruct (Contains version "-rke2") eqn:H2.
    { by apply Contains_before_Index. }
    destruct (Contains version "-k3s"); [by apply Contains_sliceTo|done].
  - intros H1 H2. unfold k8s.k8sVersions. rewrite H1, H2.
    destruct (Contains version "-k3s") eqn:H3; [|done].
    by apply Contains_before_Index.
  - intros H1 H2 H3. unfold k8s.k8sVersions. by rewrite H1, H2, H3.
  - intros base tail Hplain. unfold k8s.k8sVersions.
    assert (Contains (base ++ "+rke2" ++ tail) "+rke2" = true) as ->.
    { apply Contains_iff. by exists base, tail. }
    change ("+rke2" ++ tail) with (String "+" "rke2" ++ tail).
    rewrite (Index_after_plain "+" "rke2" base tail Hplain), Nat2Z.id.
    apply sliceTo_append.
Qed.

End Versions.

Section ImageIDs.
Import strings.

(** X2.  [getImageID] yields an image ID in the form "sha256:..." or nothing
    at all, and leaves what it yields unchanged when applied again. *)
Theorem getImageID_canonical (image : string) :
  (k8s.getImageID image = EmptyString
   \/ HasPrefix (k8s.getImageID image) "sha256:" = true)
  /\ k8s.getImageID (k8s.getImageID image) = k8s.getImageID image
  /\ (HasPrefix image "sha256:" = true -> k8s.getImageID image = image)
  /\ (HasPrefix image "sha256:" = false -> Contains image "@" = false ->
      k8s.getImageID image = EmptyString).
Proof.
  assert (forall r, HasPrefix r "sha256:" = true -> k8s.getImageID r = r) as Hfix.
  { intros r Hr. unfold k8s.getImageID.
    change (digest.Canonical ++ ":") with "sha256:". by rewrite Hr. }
  assert (k8s.getImageID image = EmptyString
          \/ HasPrefix (k8s.getImageID image) "sha256:" = true) as Hform.
  { unfold k8s.getImageID. change (digest.Canonical ++ ":") with "sha256:".
    destruct (HasPrefix image "sha256:") eqn:Hp; [by right|].
    destruct (Split image "@") as [|p0 [|p1 rest]]; [by left..|].
    destruct (HasPrefix p1 "sha256:") eqn:Hp1; [by right|by left]. }
  split; [done|]. split; [|split; [exact (Hfix image)|]].
  - destruct Hform as [->|Hp]; [reflexivity|by apply Hfix].
  - intros Hp Hno. unfold k8s.getImageID. change (digest.Canonical ++ ":") with "sha256:".
    by rewrite Hp, (Split_byte_absent "@" image Hno).
Qed.

(** A first piece of [Split] is a prefix of the string. *)
Lemma Split_byte_head (c : ascii) (s : string) :
  exists piece pieces rest,
    Split s (String c EmptyString) = piece :: pieces /\ s = piece ++ rest.
Proof.
  destruct (Contains s (String c EmptyString)) eqn:Hc.
  - apply Contains_byte_split in Hc as (pre & rest & -> & Hpre).
    rewrite Split_byte_first by done. by eexists _, _, _.
  - rewrite Split_byte_absent by done. exists s, [], EmptyString.
    by rewrite append_nil_r.
Qed.

(** An image that neither starts with "sha256:" nor holds "@sha256:"
    has no image ID of its own. *)
Lemma getImageID_unpinned (image : string) :
  HasPrefix image "sha256:" = false ->
  Contains image "@sha256:" = false ->
  k8s.getImageID image = EmptyString.
Proof.
  intros Hp Hno. unfold k8s.getImageID. change (digest.Canonical ++ ":") with "sha256:".
  rewrite Hp. destruct (Contains image "@") eqn:Hat.
  - apply Contains_byte_split in Hat as (pre & rest & -> & Hpre).
    rewrite Split_byte_first by done.
    destruct (Split_byte_head "@" rest) as (piece & pieces & more & -> & ->).
    destruct (HasPrefix piece "sha256:") eqn:Hpiece; [|done]. exfalso.
    apply prefix_iff in Hpiece as [tail ->].
    assert (Contains (pre ++ String "@" (("sha256:" ++ tail) ++ more)) "@sha256:" = true)
      as Hyes; [|congruence].
    apply Contains_iff. exists pre, (tail ++ more).
    by rewrite !append_assoc.
  - by rewrite Split_byte_absent.
Qed.

(** X3.  From the image ID a runtime reports to the digest: for a repository
    part and a digest that hold no "@", the digest comes back. *)
Theorem extractDigest_getImageID (repo dgst : string) :
  Contains repo "@" = false -> Contains dgst "@" = false ->
  k8s.extractDigest (k8s.getImageID (repo ++ "@sha256:" ++ dgst)) = dgst
  /\ k8s.extractDigest (k8s.getImageID ("sha256:" ++ dgst)) = dgst
  /\ k8s.extractDigest (repo ++ "@sha256:" ++ dgst) = dgst.
Proof.
  intros Hrepo Hdgst.
  assert (Contains ("sha256:" ++ dgst) "@" = false) as Hsd.
  { by rewrite Contains_byte_append, Hdgst. }
  assert (k8s.extractDigest ("sha256:" ++ dgst) = dgst) as Hbare.
  { rewrite extractDigest_no_at by done. apply TrimPrefix_append. }
  assert (k8s.extractDigest (repo ++ "@sha256:" ++ dgst) = dgst) as Hfull.
  { change ("@sha256:" ++ dgst) with (String "@" ("sha256:" ++ dgst)).
    rewrite <- (append_nil_r ("sha256:" ++ dgst)).
    rewrite extractDigest_after_at; [apply TrimPrefix_append|done|done|by left]. }
  split; [|split; [|done]].
  - unfold k8s.getImageID. change (digest.Canonical ++ ":") with "sha256:".
    destruct (HasPrefix (repo ++ "@sha256:" ++ dgst) "sha256:"); [done|].
    change ("@sha256:" ++ dgst) with (String "@" ("sha256:" ++ dgst)).
    rewrite Split_byte_first, Split_byte_absent by done.
    unfold HasPrefix. by rewrite prefix_append.
  - unfold k8s.getImageID at 1. change (digest.Canonical ++ ":") with "sha256:".
    unfold HasPrefix. by rewrite prefix_append.
Qed.

End ImageIDs.

(** The digest of an image pulled from the default registry. *)
Lemma extractDigest_getImageID_witness :
  k8s.extractDigest
    (k8s.getImageID ("index.docker.io/library/nginx" ++ "@sha256:" ++ Sample.hexDigest))
  = Sample.hexDigest.
Proof.
  apply (extractDigest_getImageID "index.docker.io/library/nginx" Sample.hexDigest);
    vm_compute; reflexivity.
Defined.

(** ** Component Classifier and Namer: labelled and unstarted pods *)
Section AssemblerMore.
Import strings.

Variable U : Unicode.
Variable R : MapRange.
Variable ParseReference : string -> result containerimage.Reference.

(** An image ID whose digest is not 64 bytes long never yields a
    container, whatever the name. *)
Lemma GetContainer_short_digest (imageName imageId : string) :
  String.length (k8s.extractDigest imageId) <> 64%nat ->
  exists err, k8s.GetContainer ParseReference imageName imageId = Err err.
Proof.
  intros Hlen. unfold k8s.GetContainer.
  destruct (ParseReference _) as [imageRef|err]; [|eauto].
  change (digest.CanonicalSize * 2)%nat with 64%nat.
  destruct (Nat.eqb_spec (String.length (k8s.extractDigest imageId)) 64); [done|].
  simpl. eauto.
Qed.

Lemma idSource_no_status (image : string) : Spec.idSource [] image = image.
Proof. done. Qed.

(** X4.  A pod without container statuses whose declared images
    neither start with "sha256:" nor hold "@sha256:" has no image ID
    for any container, so every container is dropped: the component is
    built, with no containers. *)
Theorem PodInfo_not_started (pod : corev1.Pod) (labelSelector : string) :
  corev1.ContainerStatuses pod = [] ->
  (forall c, c ∈ corev1.Containers (corev1.Spec pod) ->
     HasPrefix (corev1.Image c) "sha256:" = false
     /\ Contains (corev1.Image c) "@sha256:" = false) ->
  exists component,
    k8s.PodInfo U R ParseReference pod labelSelector = Ok component
    /\ bom.Containers component = [].
Proof.
  intros Hstatuses Himages.
  destruct (PodInfo_returns U R ParseReference pod labelSelector)
    as (component & Hinfo & _ & Hcs).
  exists component. split; [done|]. rewrite Hcs.
  destruct (k8s.podContainers _ _ _) as [|container rest] eqn:E; [done|]. exfalso.
  assert (container
          ∈ k8s.podContainers ParseReference pod (k8s.getImageIDsByStatuses pod)) as Hin
    by (rewrite E; apply list_elem_of_here).
  apply elem_of_podContainers in Hin as (i & s & Hi & Hok).
  rewrite getImageIDsByStatuses_general in Hok
    by (rewrite Hstatuses; apply andb_false_r).
  unfold k8s.sliceIndex in Hok. rewrite list_lookup_fmap, Hi, Hstatuses in Hok.
  simpl in Hok. rewrite idSource_no_status in Hok.
  destruct (Himages s) as [Hprefix Hpinned]; [by eapply list_elem_of_lookup_2|].
  rewrite (getImageID_unpinned _ Hprefix Hpinned) in Hok.
  destruct (GetContainer_short_digest (corev1.Image s) EmptyString) as [err Herr]; [done|].
  congruence.
Qed.

Lemma findComponentVersion_no_name (containers : list bom.Container) :
  k8s.findComponentVersion containers EmptyString
  = from_option Spec.containerVersion EmptyString (head containers).
Proof.
  destruct containers as [|c rest]; [done|]. cbn [k8s.findComponentVersion head from_option].
  unfold Spec.containerVersion.
  destruct (Contains (bom.Version c) "rke2" || Contains (bom.Version c) "k3s"); [done|].
  by rewrite Contains_empty.
Qed.

(** X5.  A pod without a version label, listed by a selector that is
    not one of its label keys, takes its version from its first
    container alone: that container's tag (cut at a distro marker when
    it names rke2 or k3s), trimmed like every version; no container, no
    version. *)
Theorem PodInfo_version_fallback (pod : corev1.Pod) (labelSelector : string) :
  k8s.mapIndex (corev1.PodLabels pod) "app.kubernetes.io/version" = EmptyString ->
  k8s.mapIndex (corev1.PodLabels pod) labelSelector = EmptyString ->
  exists component,
    k8s.PodInfo U R ParseReference pod labelSelector = Ok component
    /\ bom.ComponentVersion component
       = k8s.trimString U
           (from_option Spec.containerVersion EmptyString (head (bom.Containers component)))
           ["v"; "V"].
Proof.
  intros Hversion Hselector. unfold k8s.PodInfo. rewrite Hversion, Hselector.
  rewrite findComponentVersion_no_name. cbn [String.eqb].
  destruct (String.eqb _ EmptyString); [destruct (k8s.CoreComponentPropertyType !! _)|];
    eexists; (split; [reflexivity|]); done.
Qed.

(** X6.  A pod with an app.kubernetes.io/name label is named by it:
    the label value as it is, behind the organization that owns it
    when there is one; the upstream tables are not consulted, the type
    is the component label, and a version label is used as it is. *)
Theorem PodInfo_labelled (pod : corev1.Pod) (labelSelector : string) :
  k8s.mapIndex (corev1.PodLabels pod) "app.kubernetes.io/name" <> EmptyString ->
  let name := k8s.mapIndex (corev1.PodLabels pod) "app.kubernetes.io/name" in
  exists component,
    k8s.PodInfo U R ParseReference pod labelSelector = Ok component
    /\ (forall org, Spec.owns U org name -> bom.Name component = org ++ "/" ++ name)
    /\ ((forall org, ~ Spec.owns U org name) -> bom.Name component = name)
    /\ bom.Properties component !! "Type"
       = Some (k8s.mapIndex (corev1.PodLabels pod) "app.kubernetes.io/component")
    /\ bom.Properties component !! "Name" = Some (corev1.PodName pod)
    /\ bom.Namespace component = corev1.PodNamespace pod
    /\ (k8s.mapIndex (corev1.PodLabels pod) "app.kubernetes.io/version" <> EmptyString ->
        bom.ComponentVersion component
        = k8s.mapIndex (corev1.PodLabels pod) "app.kubernetes.io/version").
Proof.
  intros Hname name. unfold k8s.PodInfo. fold name.
  apply String.eqb_neq in Hname. fold name in Hname. rewrite Hname.
  eexists. split; [reflexivity|]. cbn [bom.Name bom.Properties bom.Namespace bom.ComponentVersion].
  split; [|split; [|split; [|split; [|split]]]].
  - intros org Hown. rewrite (upstreamOrgByName_owner U R org name Hown).
    by rewrite (owns_nonempty U org name Hown).
  - intros Hnone. by rewrite (upstreamOrgByName_none U R name Hnone).
  - by rewrite lookup_insert_eq.
  - rewrite lookup_insert_ne by done. by rewrite lookup_insert_eq.
  - done.
  - intros Hv%String.eqb_neq. by rewrite Hv.
Qed.

End AssemblerMore.

(** ** BOM Assembler: nodes, components and the cluster *)
Section Inventory.
Import strings.

Variable U : Unicode.
Variable R : MapRange.
Variable ParseReference : string -> result containerimage.Reference.

Lemma elem_of_nodeImages (node : corev1.Node) (components : list bom.Component) (id : string) :
  id ∈ k8s.nodeImages node components <->
  exists image c co,
    image ∈ corev1.Images node /\ c ∈ components /\ co ∈ bom.Containers c
    /\ id = Spec.imageName co /\ id ∈ corev1.Names image.
Proof.
  unfold k8s.nodeImages. rewrite list_elem_of_In, in_flat_map. split.
  - intros (image & Himage & (c & Hc & (co & Hco & Hid)%in_flat_map)%in_flat_map).
    fold (Spec.imageName co) in Hid.
    destruct (existsb _ _) eqn:Hex; [|done].
    destruct Hid as [<-|[]].
    apply existsb_exists in Hex as (n & Hn & <-%String.eqb_eq).
    exists image, c, co. by rewrite !list_elem_of_In.
  - intros (image & c & co & Himage & Hc & Hco & -> & Hn).
    exists image. split; [by apply list_elem_of_In|].
    apply in_flat_map. exists c. split; [by apply list_elem_of_In|].
    apply in_flat_map. exists co. split; [by apply list_elem_of_In|].
    fold (Spec.imageName co).
    assert (existsb (String.eqb (Spec.imageName co)) (corev1.Names image) = true) as ->.
    { apply existsb_exists. exists (Spec.imageName co).
      split; [by apply list_elem_of_In|apply String.eqb_refl]. }
    by left.
Qed.

Lemma NodeInfo_role (node : corev1.Node) :
  bom.NodeProperties (k8s.NodeInfo U node) !! "NodeRole" = Some (Spec.nodeRole node)
  /\ bom.NodeProperties (k8s.NodeInfo U node) !! "HostName" = Some (corev1.NodeName node).
Proof.
  unfold k8s.NodeInfo, Spec.nodeRole. cbn [bom.NodeProperties list_to_map foldr uncurry fst snd].
  rewrite lookup_insert_eq, lookup_insert_ne by done. rewrite lookup_insert_eq.
  split; [|done]. f_equal.
  destruct (corev1.NodeLabels node !! "node-role.kubernetes.io/control-plane") as [x|];
    destruct (corev1.NodeLabels node !! "node-role.kubernetes.io/master") as [y|];
    case_bool_decide as H; try done.
  - destruct H. left. eauto.
  - destruct H. left. eauto.
  - destruct H. right. eauto.
  - destruct H as [[? ?]|[? ?]]; done.
Qed.

(** X7.  When the nodes are listed, [CollectNodes] answers with one
    entry per node, in the order of the listing and under the node's
    name.  A node is a master when it carries one of the two
    control-plane labels and a worker otherwise; and its images are
    the names "registry/repository:version" of the containers of the
    components that one of the node's images goes by. *)
Theorem CollectNodes_inventory (c : k8s.cluster) (components : list bom.Component)
    (nodes : list corev1.Node) :
  client.NodesList (k8s.clientset c) = Ok nodes ->
  exists infos,
    k8s.CollectNodes U c components = Ok infos
    /\ map bom.NodeName infos = map corev1.NodeName nodes
    /\ (forall i node info,
          nodes !! i = Some node -> infos !! i = Some info ->
          bom.NodeProperties info !! "NodeRole" = Some (Spec.nodeRole node)
          /\ bom.NodeProperties info !! "HostName" = Some (corev1.NodeName node)
          /\ (forall id,
                id ∈ bom.Images info <->
                exists image c co,
                  image ∈ corev1.Images node /\ c ∈ components /\ co ∈ bom.Containers c
                  /\ id = Spec.imageName co /\ id ∈ corev1.Names image)).
Proof.
  intros Hlist. unfold k8s.CollectNodes. rewrite Hlist.
  eexists. split; [reflexivity|]. split.
  - rewrite map_map. done.
  - intros i node info Hnode Hinfo. rewrite list_lookup_fmap, Hnode in Hinfo.
    injection Hinfo as <-. cbn [bom.NodeProperties bom.Images].
    destruct (NodeInfo_role node) as [Hrole Hhost].
    split; [done|]. split; [done|]. apply elem_of_nodeImages.
Qed.

(** X8.  The components [collectComponents] returns are exactly those
    of the pods that the listings of its selectors return, whatever
    the order in which the selectors are visited. *)
Theorem collectComponents_exact (c : k8s.cluster) (labels : gmap string string) :
  exists components,
    k8s.collectComponents U R ParseReference c labels = Ok components
    /\ forall component,
         component ∈ components <->
         exists namespace labelSelector pods pod,
           labels !! namespace = Some labelSelector
           /\ client.PodsList (k8s.clientset c) namespace labelSelector = Ok pods
           /\ pod ∈ pods
           /\ k8s.PodInfo U R ParseReference pod labelSelector = Ok component.
Proof.
  unfold k8s.collectComponents. eexists. split; [reflexivity|].
  intros component. rewrite list_elem_of_In, in_flat_map. split.
  - intros ([namespace labelSelector] & Hin & Hcomp).
    apply list_elem_of_In, (elem_of_rangeOf R) in Hin.
    unfold k8s.getPodsInfo in Hcomp.
    destruct (client.PodsList _ _ _) as [pods|err] eqn:Hpods; [|done].
    apply in_flat_map in Hcomp as (pod & Hpod & Hinfo).
    destruct (k8s.PodInfo _ _ _ _ _) as [pi|] eqn:Hpi; [|done].
    destruct Hinfo as [<-|[]].
    exists namespace, labelSelector, pods, pod. by rewrite list_elem_of_In.
  - intros (namespace & labelSelector & pods & pod & Hsel & Hpods & Hpod & Hinfo).
    exists (namespace, labelSelector). split.
    + by apply list_elem_of_In, (elem_of_rangeOf R).
    + unfold k8s.getPodsInfo. rewrite Hpods. apply in_flat_map.
      exists pod. split; [by apply list_elem_of_In|]. rewrite Hinfo. by left.
Qed.

Lemma CreateBomComponents_cluster_wide (c : k8s.cluster) :
  exists components addons,
    k8s.collectComponents U R ParseReference c {[ EmptyString := "component" ]}
      = Ok components
    /\ k8s.collectComponents U R ParseReference c
         (<["kube-system" := "k8s-app"]>
            {[ EmptyString := "app.kubernetes.io/component=controller" ]}) = Ok addons
    /\ k8s.CreateBomComponents U R ParseReference c EmptyString
       = Ok (components ++ addons)%list.
Proof.
  unfold k8s.CreateBomComponents, k8s.collectComponents. cbn [String.eqb negb andb orb].
  eexists. eexists. split; [reflexivity|]. split; reflexivity.
Qed.

(** X10.  [CreateClusterBom] lists the pods under the empty namespace
    with the selector "component", then the addons, without asking
    whether the cluster is OpenShift.  When it returns a BOM, that BOM
    holds these components, the nodes collected for them, the
    cluster's name and its trimmed version.  It fails only with the
    error of the node listing (other than not-found and forbidden), of
    the client configuration or of the server version. *)
Theorem CreateClusterBom_outcome (c : k8s.cluster) :
  exists components addons,
    k8s.collectComponents U R ParseReference c {[ EmptyString := "component" ]}
      = Ok components
    /\ k8s.collectComponents U R ParseReference c
         (<["kube-system" := "k8s-app"]>
            {[ EmptyString := "app.kubernetes.io/component=controller" ]}) = Ok addons
    /\ match k8s.CreateClusterBom U R ParseReference c with
       | Ok result =>
           exists nodesInfo name version,
             k8s.CollectNodes U c (components ++ addons) = Ok nodesInfo
             /\ k8s.ClusterNameVersion c = Ok (name, version)
             /\ bom.Components result = (components ++ addons)%list
             /\ bom.NodesInfo result = nodesInfo
             /\ bom.ResultID result = "k8s.io/kubernetes"
             /\ bom.ResultType result = "Cluster"
             /\ bom.ResultVersion result = k8s.trimString U version ["v"; "V"]
             /\ bom.ResultProperties result !! "Name" = Some name
             /\ bom.ResultProperties result !! "Type" = Some "cluster"
       | Err err =>
           (client.NodesList (k8s.clientset c) = Err err
            /\ IsNotFound err || IsForbidden err = false)
           \/ (exists nodesInfo, k8s.CollectNodes U c (components ++ addons) = Ok nodesInfo)
              /\ (k8s.cConfigRawConfig c = Err err
                  \/ (exists rawCfg, k8s.cConfigRawConfig c = Ok rawCfg)
                     /\ client.ServerVersion (k8s.clientset c) = Err err)
       end.
Proof.
  destruct (CreateBomComponents_cluster_wide c) as (components & addons & Hc & Ha & Hall).
  exists components, addons. split; [done|]. split; [done|].
  unfold k8s.CreateClusterBom. rewrite Hall.
  destruct (k8s.CollectNodes U c (components ++ addons)) as [nodesInfo|err] eqn:Hnodes.
  - unfold k8s.getClusterBomInfo.
    destruct (k8s.ClusterNameVersion c) as [[name version]|err] eqn:Hnv.
    + exists nodesInfo, name, version. repeat split; done.
    + right. split; [eauto|]. unfold k8s.ClusterNameVersion in Hnv.
      destruct (k8s.cConfigRawConfig c) as [rawCfg|err'] eqn:Hraw.
      * right. split; [eauto|].
        destruct (client.ServerVersion _) as [v|err'']; [done|]. congruence.
      * left. congruence.
  - left. unfold k8s.CollectNodes in Hnodes.
    destruct (client.NodesList _) as [nodes|err'] eqn:Hlist; [done|].
    destruct (IsNotFound err' || IsForbidden err') eqn:Haccess; [done|].
    injection Hnodes as <-. done.
Qed.

(** X11.  The cluster is named after the context in use: the one the
    cluster was opened with, else the current context of the
    configuration.  A context that the configuration does not hold
    leaves the name "k8s.io/kubernetes".  The version is the server's,
    as reported. *)
Theorem ClusterNameVersion_name (c : k8s.cluster) (rawCfg : client.RawConfig)
    (gitVersion : string) :
  k8s.cConfigRawConfig c = Ok rawCfg ->
  client.ServerVersion (k8s.clientset c) = Ok gitVersion ->
  let current :=
    if String.eqb (k8s.currentContext c) EmptyString
    then client.CurrentContext rawCfg else k8s.currentContext c in
  k8s.ClusterNameVersion c
  = Ok (match client.Contexts rawCfg !! current with
        | Some clusterContext => client.Cluster clusterContext
        | None => "k8s.io/kubernetes"
        end, gitVersion).
Proof.
  intros Hraw Hversion current. unfold k8s.ClusterNameVersion. rewrite Hraw, Hversion.
  do 2 f_equal. subst current.
  destruct (Nat.ltb_spec 0 (size (client.Contexts rawCfg))) as [Hpos|Hzero].
  - by destruct (String.eqb (k8s.currentContext c) EmptyString).
  - assert (client.Contexts rawCfg = ∅) as -> by (apply map_size_empty_inv; lia).
    by rewrite lookup_empty.
Qed.

End Inventory.

(** ** Credential Resolver: listing the pull secrets *)
Section SecretListing.
Import strings.

Lemma ListByLocalObjectReferences_loop (c : k8s.cluster) (ns : string)
    (refs : list corev1.LocalObjectReference) (acc : list corev1.Secret) :
  match k8s.foldResult
          (fun secrets secretRef =>
             if String.eqb (corev1.RefName secretRef) EmptyString then Ok secrets
             else
               match client.SecretsGet (k8s.clientset c) ns (corev1.RefName secretRef) with
               | Err err =>
                   if IsNotFound err || IsForbidden err then Ok secrets
                   else Err (SecretError ns (corev1.RefName secretRef) err)
               | Ok secret => Ok (secrets ++ [secret])%list
               end)
          acc refs with
  | Ok secrets =>
      secrets = (acc ++ omap (Spec.secretFor c ns) refs)%list
      /\ Forall (fun ref => Spec.secretUnreachable c ns ref = None) refs
  | Err err =>
      exists before ref after cause,
        refs = (before ++ ref :: after)%list
        /\ Forall (fun ref => Spec.secretUnreachable c ns ref = None) before
        /\ Spec.secretUnreachable c ns ref = Some cause
        /\ err = SecretError ns (corev1.RefName ref) cause
  end.
Proof.
  revert acc. induction refs as [|ref refs IH]; intros acc.
  - simpl. by rewrite app_nil_r.
  - cbn [k8s.foldResult].
    assert (forall acc' : list corev1.Secret,
              Spec.secretUnreachable c ns ref = None ->
              (acc' = acc ++ option_list (Spec.secretFor c ns ref))%list ->
              match k8s.foldResult
                      (fun secrets secretRef =>
                         if String.eqb (corev1.RefName secretRef) EmptyString then Ok secrets
                         else
                           match client.SecretsGet (k8s.clientset c) ns
                                   (corev1.RefName secretRef) with
                           | Err err =>
                               if IsNotFound err || IsForbidden err then Ok secrets
                               else Err (SecretError ns (corev1.RefName secretRef) err)
                           | Ok secret => Ok (secrets ++ [secret])%list
                           end)
                      acc' refs with
              | Ok secrets =>
                  secrets = (acc ++ omap (Spec.secretFor c ns) (ref :: refs))%list
                  /\ Forall (fun ref => Spec.secretUnreachable c ns ref = None) (ref :: refs)
              | Err err =>
                  exists before ref' after cause,
                    ref :: refs = (before ++ ref' :: after)%list
                    /\ Forall (fun ref => Spec.secretUnreachable c ns ref = None) before
                    /\ Spec.secretUnreachable c ns ref' = Some cause
                    /\ err = SecretError ns (corev1.RefName ref') cause
              end) as Hnext.
    { intros acc' Hreach ->. specialize (IH (acc ++ option_list (Spec.secretFor c ns ref))%list).
      destruct (k8s.foldResult _ _ refs) as [secrets|err].
      - destruct IH as [-> Hall]. split; [|by constructor].
        rewrite <- app_assoc. f_equal. cbn [omap list_omap].
        by destruct (Spec.secretFor c ns ref).
      - destruct IH as (before & ref' & after & cause & -> & Hbefore & Hcause & ->).
        exists (ref :: before), ref', after, cause. split; [done|]. split; [by constructor|done]. }
    unfold Spec.secretFor, Spec.secretUnreachable in Hnext |- *.
    destruct (String.eqb (corev1.RefName ref) EmptyString) eqn:Hname.
    { apply Hnext; [done|]. by rewrite app_nil_r. }
    destruct (client.SecretsGet (k8s.clientset c) ns (corev1.RefName ref)) as [secret|err] eqn:Hget.
    { by apply Hnext. }
    destruct (IsNotFound err || IsForbidden err) eqn:Haccess.
    { apply Hnext; [done|]. by rewrite app_nil_r. }
    exists [], ref, refs, err. split; [done|]. split; [constructor|].
    unfold Spec.secretUnreachable. by rewrite Hname, Hget, Haccess.
Qed.

(** X12.  [ListByLocalObjectReferences] returns the secrets its references
    resolve to, in the order of the references: a reference with an
    empty name, and one whose secret is not found or may not be read,
    adds nothing.  It fails exactly at the first reference whose lookup
    fails for another reason, with that reference's name and cause. *)
Theorem ListByLocalObjectReferences_outcome (c : k8s.cluster)
    (refs : list corev1.LocalObjectReference) (ns : string) :
  match k8s.ListByLocalObjectReferences c refs ns with
  | Ok secrets =>
      secrets = omap (Spec.secretFor c ns) refs
      /\ Forall (fun ref => Spec.secretUnreachable c ns ref = None) refs
  | Err err =>
      exists before ref after cause,
        refs = (before ++ ref :: after)%list
        /\ Forall (fun ref => Spec.secretUnreachable c ns ref = None) before
        /\ Spec.secretUnreachable c ns ref = Some cause
        /\ err = SecretError ns (corev1.RefName ref) cause
  end.
Proof. apply (ListByLocalObjectReferences_loop c ns refs []). Qed.

End SecretListing.

(** ** Credential Resolver: failures, replacement and the pod spec *)
Section CredentialMergeMore.
Import strings.

Variable R : MapRange.
Variable GetServerFromDockerAuthKey : string -> result string.
Variable ConfigRead : string -> bool -> result (gmap string docker.Auth).

(** The switch of the loop on the secret's type reads what the secret
    carries as a Docker configuration, and nothing else. *)
Lemma requiredData_payload (secret : corev1.Secret) :
  match k8s.requiredData secret with
  | Some (Some data, isLegacy) => Some (data, isLegacy)
  | _ => None
  end = Spec.dockerPayload secret.
Proof.
  unfold k8s.requiredData, Spec.dockerPayload.
  change corev1.SecretTypeDockerConfigJson with "kubernetes.io/dockerconfigjson".
  change corev1.SecretTypeDockercfg with "kubernetes.io/dockercfg".
  change corev1.DockerConfigJsonKey with ".dockerconfigjson".
  change corev1.DockerConfigKey with ".dockercfg".
  destruct (String.eqb (corev1.SecretType secret) "kubernetes.io/dockerconfigjson").
  { by destruct (corev1.Data secret !! ".dockerconfigjson"). }
  destruct (String.eqb (corev1.SecretType secret) "kubernetes.io/dockercfg"); [|done].
  by destruct (corev1.Data secret !! ".dockercfg").
Qed.

Lemma addSecret_skips (multiSecretSupport : bool) (auths : gmap string docker.Auth)
    (secret : corev1.Secret) :
  Spec.carriesDockerConfig secret = false ->
  k8s.addSecret R GetServerFromDockerAuthKey ConfigRead multiSecretSupport auths secret
  = Ok auths.
Proof.
  unfold Spec.carriesDockerConfig, k8s.addSecret. rewrite <- requiredData_payload.
  by destruct (k8s.requiredData secret) as [[[data|] isLegacy]|].
Qed.

Lemma addSecrets_skip (multiSecretSupport : bool) (secrets : list corev1.Secret)
    (auths : gmap string docker.Auth) :
  k8s.foldResult (k8s.addSecret R GetServerFromDockerAuthKey ConfigRead multiSecretSupport)
    auths secrets
  = k8s.foldResult (k8s.addSecret R GetServerFromDockerAuthKey ConfigRead multiSecretSupport)
      auths (List.filter Spec.carriesDockerConfig secrets).
Proof.
  revert auths. induction secrets as [|secret secrets IH]; intros auths; [done|].
  cbn [List.filter k8s.foldResult].
  destruct (Spec.carriesDockerConfig secret) eqn:Hcarries.
  - cbn [k8s.foldResult]. destruct (k8s.addSecret _ _ _ _ _ _); [apply IH|done].
  - rewrite addSecret_skips by done. apply IH.
Qed.

Lemma addAuth_outcome (multiSecretSupport : bool) (auths : gmap string docker.Auth)
    (authKey : string) (auth : docker.Auth) :
  match GetServerFromDockerAuthKey authKey with
  | Ok _ =>
      exists auths1,
        k8s.addAuth GetServerFromDockerAuthKey multiSecretSupport auths (authKey, auth)
        = Ok auths1
  | Err err =>
      k8s.addAuth GetServerFromDockerAuthKey multiSecretSupport auths (authKey, auth) = Err err
  end.
Proof.
  unfold k8s.addAuth. destruct (GetServerFromDockerAuthKey authKey) as [server|err]; [|done].
  destruct (auths !! server); [destruct multiSecretSupport|]; eauto.
Qed.

Lemma addAuths_succeed (multiSecretSupport : bool) (entries : list (string * docker.Auth))
    (auths : gmap string docker.Auth) :
  match k8s.foldResult (k8s.addAuth GetServerFromDockerAuthKey multiSecretSupport)
          auths entries with
  | Ok _ => Forall (fun entry => exists server, GetServerFromDockerAuthKey entry.1 = Ok server)
              entries
  | Err err => exists entry, entry ∈ entries /\ GetServerFromDockerAuthKey entry.1 = Err err
  end.
Proof.
  revert auths. induction entries as [|[authKey auth] entries IH]; intros auths; [by simpl|].
  cbn [k8s.foldResult].
  pose proof (addAuth_outcome multiSecretSupport auths authKey auth) as Hstep.
  destruct (GetServerFromDockerAuthKey authKey) as [server|err] eqn:Hserver.
  - destruct Hstep as [auths1 ->].
    specialize (IH auths1). destruct (k8s.foldResult _ _ entries) as [auths'|err].
    + constructor; [simpl; eauto|done].
    + destruct IH as (entry & Hin & Herr). exists entry. split; [by right|done].
  - rewrite Hstep. exists (authKey, auth). split; [by left|done].
Qed.

Lemma addSecret_outcome (multiSecretSupport : bool) (auths : gmap string docker.Auth)
    (secret : corev1.Secret) :
  match k8s.addSecret R GetServerFromDockerAuthKey ConfigRead multiSecretSupport
          auths secret with
  | Ok _ =>
      forall data isLegacy,
        Spec.dockerPayload secret = Some (data, isLegacy) ->
        exists dockerConfigAuths,
          ConfigRead data isLegacy = Ok dockerConfigAuths
          /\ forall authKey, is_Some (dockerConfigAuths !! authKey) ->
               exists server, GetServerFromDockerAuthKey authKey = Ok server
  | Err err =>
      exists data isLegacy,
        Spec.dockerPayload secret = Some (data, isLegacy)
        /\ match ConfigRead data isLegacy with
           | Err cause =>
               err = ReadSecretError
                       (corev1.SecretNamespace secret ++ "/" ++ corev1.SecretName secret) cause
           | Ok dockerConfigAuths =>
               exists authKey, is_Some (dockerConfigAuths !! authKey)
                               /\ GetServerFromDockerAuthKey authKey = Err err
           end
  end.
Proof.
  unfold k8s.addSecret. rewrite <- requiredData_payload.
  destruct (k8s.requiredData secret) as [[[data|] isLegacy]|]; [|done..].
  destruct (ConfigRead data isLegacy) as [dockerConfigAuths|cause] eqn:Hread.
  - pose proof (addAuths_succeed multiSecretSupport (rangeOf R dockerConfigAuths) auths)
      as Hinner.
    destruct (k8s.foldResult _ auths _) as [auths1|err].
    + intros data' isLegacy' [= <- <-]. exists dockerConfigAuths. split; [done|].
      intros authKey [auth Hauth]. rewrite Forall_forall in Hinner.
      apply (Hinner (authKey, auth)). by apply (elem_of_rangeOf R).
    + destruct Hinner as ([authKey auth] & Hin%(elem_of_rangeOf R) & Herr).
      exists data, isLegacy. split; [done|]. rewrite Hread. exists authKey. split; [eauto|done].
  - exists data, isLegacy. split; [done|]. by rewrite Hread.
Qed.

(** X13.  One secret that does not decode, or one auth key whose server
    cannot be told, fails the whole mapping: it returns a map exactly
    when every secret that carries a Docker configuration (type
    "kubernetes.io/dockerconfigjson" with the key ".dockerconfigjson",
    or type "kubernetes.io/dockercfg" with the key ".dockercfg", read
    as legacy) decodes and every auth key resolves.  What it returns
    otherwise is the decoder's error under the secret's namespace and
    name, or the resolver's error as it is.  Secrets of another type,
    and Docker secrets without their key, are passed over: the list
    without them gives the same result. *)
Theorem mapDockerRegistryServersToAuths_all_or_nothing
    (imagePullSecrets : list corev1.Secret) (multiSecretSupport : bool) :
  match k8s.mapDockerRegistryServersToAuths R GetServerFromDockerAuthKey ConfigRead
          imagePullSecrets multiSecretSupport with
  | Ok _ =>
      forall secret data isLegacy,
        secret ∈ imagePullSecrets ->
        Spec.dockerPayload secret = Some (data, isLegacy) ->
        exists dockerConfigAuths,
          ConfigRead data isLegacy = Ok dockerConfigAuths
          /\ forall authKey, is_Some (dockerConfigAuths !! authKey) ->
               exists server, GetServerFromDockerAuthKey authKey = Ok server
  | Err err =>
      exists secret data isLegacy,
        secret ∈ imagePullSecrets
        /\ Spec.dockerPayload secret = Some (data, isLegacy)
        /\ match ConfigRead data isLegacy with
           | Err cause =>
               err = ReadSecretError
                       (corev1.SecretNamespace secret ++ "/" ++ corev1.SecretName secret) cause
           | Ok dockerConfigAuths =>
               exists authKey, is_Some (dockerConfigAuths !! authKey)
                               /\ GetServerFromDockerAuthKey authKey = Err err
           end
  end
  /\ k8s.mapDockerRegistryServersToAuths R GetServerFromDockerAuthKey ConfigRead
       imagePullSecrets multiSecretSupport
     = k8s.mapDockerRegistryServersToAuths R GetServerFromDockerAuthKey ConfigRead
         (List.filter Spec.carriesDockerConfig imagePullSecrets) multiSecretSupport.
Proof.
  split; [|apply addSecrets_skip].
  unfold k8s.mapDockerRegistryServersToAuths. generalize (∅ : gmap string docker.Auth).
  induction imagePullSecrets as [|secret secrets IH]; intros auths.
  - simpl. intros secret data isLegacy Hin. by apply elem_of_nil in Hin.
  - cbn [k8s.foldResult].
    pose proof (addSecret_outcome multiSecretSupport auths secret) as Hstep.
    destruct (k8s.addSecret _ _ _ _ auths secret) as [auths1|err].
    + specialize (IH auths1). destruct (k8s.foldResult _ auths1 secrets) as [auths'|err].
      * intros secret' data' isLegacy' [->|Hin]%elem_of_cons Hdata'; [by apply Hstep|].
        by apply (IH secret').
      * destruct IH as (secret' & data' & isLegacy' & Hin & Hdata' & Hcause).
        exists secret', data', isLegacy'. split; [by right|done].
    + destruct Hstep as (data & isLegacy & Hdata & Hcause).
      exists secret, data, isLegacy. split; [by left|done].
Qed.

Lemma last_option_list_app {A : Type} (l l' : list A) :
  last (option_list (last l) ++ l') = last (l ++ l').
Proof. rewrite !last_app. destruct (last l'); [done|]. by destruct (last l). Qed.

Lemma addAuth_replace (auths auths' : gmap string docker.Auth)
    (entry : string * docker.Auth) (server : string) :
  k8s.addAuth GetServerFromDockerAuthKey false auths entry = Ok auths' ->
  auths' !! server
  = last (option_list (auths !! server)
          ++ Spec.credentialsOf GetServerFromDockerAuthKey server [entry]).
Proof.
  destruct entry as [authKey auth]. intros Hstep. unfold k8s.addAuth in Hstep.
  unfold Spec.credentialsOf, Spec.resolved. cbn [omap list_omap fst snd].
  destruct (GetServerFromDockerAuthKey authKey) as [s|err]; [|done].
  assert (auths' = <[s := auth]> auths) as ->
    by (destruct (auths !! s); by injection Hstep as <-).
  cbn [List.filter fst]. destruct (String.eqb_spec s server) as [->|Hne].
  - rewrite lookup_insert_eq. by destruct (auths !! server).
  - rewrite lookup_insert_ne by done. cbn [map]. rewrite app_nil_r.
    by destruct (auths !! server).
Qed.

Lemma addAuths_replace (entries : list (string * docker.Auth))
    (auths auths' : gmap string docker.Auth) (server : string) :
  k8s.foldResult (k8s.addAuth GetServerFromDockerAuthKey false) auths entries = Ok auths' ->
  auths' !! server
  = last (option_list (auths !! server)
          ++ Spec.credentialsOf GetServerFromDockerAuthKey server entries).
Proof.
  revert auths. induction entries as [|entry entries IH]; intros auths.
  - intros [= <-]. unfold Spec.credentialsOf. simpl. rewrite app_nil_r.
    by destruct (auths !! server).
  - simpl.
    destruct (k8s.addAuth GetServerFromDockerAuthKey false auths entry)
      as [auths1|err] eqn:Hstep; [|done].
    intros Hrest. rewrite (IH _ Hrest), (addAuth_replace _ _ _ server Hstep).
    rewrite last_option_list_app, <- app_assoc.
    by rewrite <- (credentialsOf_app GetServerFromDockerAuthKey server [entry] entries).
Qed.

Lemma addSecrets_replace (secrets : list corev1.Secret)
    (auths auths' : gmap string docker.Auth) (server : string) :
  k8s.foldResult (k8s.addSecret R GetServerFromDockerAuthKey ConfigRead false) auths secrets
  = Ok auths' ->
  auths' !! server
  = last (option_list (auths !! server)
          ++ Spec.credentialsFor R GetServerFromDockerAuthKey ConfigRead server secrets).
Proof.
  unfold Spec.credentialsFor.
  revert auths. induction secrets as [|secret secrets IH]; intros auths.
  - intros [= <-]. unfold Spec.credentialsOf. simpl. rewrite app_nil_r.
    by destruct (auths !! server).
  - cbn [k8s.foldResult flat_map].
    destruct (k8s.addSecret R GetServerFromDockerAuthKey ConfigRead false auths secret)
      as [auths1|err] eqn:Hstep; [|done].
    intros Hrest. rewrite (IH _ Hrest).
    assert (auths1 !! server
            = last (option_list (auths !! server)
                    ++ Spec.credentialsOf GetServerFromDockerAuthKey server
                         (Spec.secretAuths R ConfigRead secret))) as ->.
    { unfold k8s.addSecret, Spec.secretAuths in Hstep |- *.
      destruct (k8s.requiredData secret) as [[[data|] isLegacy]|].
      - destruct (ConfigRead data isLegacy) as [dockerConfigAuths|err]; [|done].
        by apply addAuths_replace.
      - injection Hstep as <-. unfold Spec.credentialsOf. simpl. rewrite app_nil_r.
        by destruct (auths !! server).
      - injection Hstep as <-. unfold Spec.credentialsOf. simpl. rewrite app_nil_r.
        by destruct (auths !! server). }
    by rewrite last_option_list_app, <- app_assoc, credentialsOf_app.
Qed.

(** X14.  Without multi-secret support nothing is joined: for every registry
    server the map holds the last credential the secrets contribute for
    it, and no entry when they contribute none. *)
Theorem mapDockerRegistryServersToAuths_last_wins
    (imagePullSecrets : list corev1.Secret) (auths : gmap string docker.Auth) :
  k8s.mapDockerRegistryServersToAuths R GetServerFromDockerAuthKey ConfigRead
    imagePullSecrets false = Ok auths ->
  forall server,
    auths !! server
    = last (Spec.credentialsFor R GetServerFromDockerAuthKey ConfigRead
              server imagePullSecrets).
Proof.
  intros Hmap server. unfold k8s.mapDockerRegistryServersToAuths in Hmap.
  rewrite (addSecrets_replace _ _ _ server Hmap). by rewrite lookup_empty.
Qed.


End CredentialMergeMore.

(** Two secrets for registry.io: the later one stays. *)
Lemma mapDockerRegistryServersToAuths_last_wins_witness :
  exists auths,
    k8s.mapDockerRegistryServersToAuths canonicalRange
      Sample.GetServerFromDockerAuthKey Sample.ConfigRead
      [Sample.secretOf "a" "payload-alice"; Sample.secretOf "b" "payload-bob";
       Sample.secretOf "c" "payload-carol"] false = Ok auths
    /\ auths !! "registry.io" = Some Sample.bob.
Proof.
  assert (exists auths,
            k8s.mapDockerRegistryServersToAuths canonicalRange
              Sample.GetServerFromDockerAuthKey Sample.ConfigRead
              [Sample.secretOf "a" "payload-alice"; Sample.secretOf "b" "payload-bob";
               Sample.secretOf "c" "payload-carol"] false = Ok auths) as [auths Hmap]
    by (eexists; vm_compute; reflexivity).
  exists auths. split; [exact Hmap|].
  rewrite (mapDockerRegistryServersToAuths_last_wins canonicalRange
             Sample.GetServerFromDockerAuthKey Sample.ConfigRead _ _ Hmap "registry.io").
  vm_compute. reflexivity.
Defined.


(** ** Credential Resolver: what a lookup returns; pod specs *)
Section CredentialLookupMore.
Import strings.
Variable R : MapRange.
Variable GetServerFromImageRef : string -> result string.

Lemma matchSubDomain_sound (wildcardServers : list string) (subDomain : string) :
  (k8s.matchSubDomain wildcardServers subDomain = EmptyString
   /\ forall domain, In domain wildcardServers -> domain <> EmptyString ->
        HasSuffix subDomain (Replace domain "*" EmptyString 1) = false)
  \/ (In (k8s.matchSubDomain wildcardServers subDomain) wildcardServers
      /\ HasSuffix subDomain
           (Replace (k8s.matchSubDomain wildcardServers subDomain) "*" EmptyString 1) = true).
Proof.
  induction wildcardServers as [|d rest IH]; [left; by split|]. simpl.
  destruct (HasSuffix subDomain (Replace d "*" EmptyString 1)) eqn:Hd.
  - right. split; [by left|done].
  - destruct IH as [[Hnone Hall]|[Hin Hs]].
    + left. split; [done|]. intros domain [<-|Hin] Hne; [done|by apply Hall].
    + right. split; [by right|done].
Qed.

(** X16.  What [MapContainerNamesToDockerAuths] hands back is always one of
    four things.  A credential without error is an entry of the map,
    under the server of the image itself or, when the server has no
    entry, under a wildcard key that matches it.  Nothing without
    error means the server is known and neither it nor a matching
    wildcard key has an entry.  When the server cannot be told the
    error comes with an empty credential, not with nil; and nil with an
    error is never returned. *)
Theorem MapContainerNamesToDockerAuths_outcome (imageRef : string)
    (auths : gmap string docker.Auth) :
  match k8s.MapContainerNamesToDockerAuths R GetServerFromImageRef imageRef auths with
  | (Some auth, None) =>
      exists server key,
        GetServerFromImageRef imageRef = Ok server
        /\ auths !! key = Some auth
        /\ (key = server
            \/ (auths !! server = None /\ Spec.wildcardMatch key server = true))
  | (None, None) =>
      exists server,
        GetServerFromImageRef imageRef = Ok server
        /\ auths !! server = None
        /\ forall key, is_Some (auths !! key) -> Spec.wildcardMatch key server = false
  | (Some auth, Some err) =>
      GetServerFromImageRef imageRef = Err err /\ auth = Spec.zeroAuth
  | (None, Some _) => False
  end.
Proof.
  unfold k8s.MapContainerNamesToDockerAuths. cbv zeta.
  destruct (GetServerFromImageRef imageRef) as [server|err]; [|done].
  destruct (auths !! server) as [auth|] eqn:Hserver.
  { exists server, server. split; [done|]. split; [done|]. by left. }
  assert (forall key, is_Some (auths !! key) -> Spec.wildcardMatch key server = true ->
            In key (k8s.GetWildcardServers R auths)
            /\ HasSuffix server (Replace key "*" EmptyString 1) = true) as Hkeys.
  { intros key Hsome [Hp Hs]%wildcardMatch_code. split; [|done].
    by apply elem_of_GetWildcardServers. }
  assert ((forall domain, In domain (k8s.GetWildcardServers R auths) ->
             HasSuffix server (Replace domain "*" EmptyString 1) = false) ->
          exists server0,
            Ok server = Ok server0 /\ auths !! server0 = None
            /\ forall key, is_Some (auths !! key) -> Spec.wildcardMatch key server0 = false)
    as Hmiss.
  { intros Hnone. exists server. split; [done|]. split; [done|]. intros key Hsome.
    apply not_true_is_false. intros Hm. destruct (Hkeys key Hsome Hm) as [Hin Hs].
    by rewrite (Hnone key Hin) in Hs. }
  destruct (0 <? length (k8s.GetWildcardServers R auths))%nat eqn:Hlen.
  - destruct (matchSubDomain_sound (k8s.GetWildcardServers R auths) server)
      as [[-> Hnone]|[Hin Hs]].
    + cbn [String.length Nat.ltb Nat.leb]. apply Hmiss. intros domain Hin. apply Hnone; [done|].
      apply elem_of_GetWildcardServers in Hin as [_ Hp].
      apply HasPrefix_wildcard in Hp as [rest ->]. done.
    + pose proof Hin as [[auth Hauth] Hp]%elem_of_GetWildcardServers.
      rewrite (wildcard_nonempty _ Hp), Hauth.
      exists server, (k8s.matchSubDomain (k8s.GetWildcardServers R auths) server).
      split; [done|]. split; [done|]. right. split; [done|]. by apply wildcardMatch_code.
  - apply Hmiss. intros domain Hin.
    destruct (k8s.GetWildcardServers R auths); [destruct Hin|done].
Qed.

End CredentialLookupMore.

Section PodSpecs.
Import strings unstructured.
Variable R : MapRange.
Variable GetServerFromDockerAuthKey : string -> result string.
Variable ConfigRead : string -> bool -> result (gmap string docker.Auth).
Variable Decode : gmap string value -> corev1.PodSpec * option error.

Lemma nestedFieldFrom_absent (fields more walked : list string) (val : value) :
  nestedFieldFrom walked val fields = Ok None ->
  nestedFieldFrom walked val (fields ++ more) = Ok None.
Proof.
  revert walked val. induction fields as [|field fields IH]; intros walked val; [done|].
  cbn [nestedFieldFrom app]. destruct val as [| | | |m|]; try done.
  destruct (m !! field) as [v|]; [apply IH|done].
Qed.

Lemma NestedFieldNoCopy_absent (fields more : list string) (val : value) :
  NestedFieldNoCopy val fields = Ok None ->
  NestedFieldNoCopy val (fields ++ more) = Ok None.
Proof. apply nestedFieldFrom_absent. Qed.

Lemma getWorkloadPodSpec_supported (un : Unstructured) :
  GetKind un ∈ Spec.workloadKinds ->
  k8s.getWorkloadPodSpec Decode un
  = k8s.podSpecAt Decode un (artifacts.nestedKeysOf (GetKind un)).
Proof.
  intros Hkind. unfold k8s.getWorkloadPodSpec, artifacts.nestedKeysOf.
  apply list_elem_of_In in Hkind. unfold Spec.workloadKinds in Hkind.
  repeat destruct Hkind as [<-|Hkind]; try done.
Qed.

Lemma extractImages_absent (resource : Unstructured) (fields : list string) (key : string) :
  NestedMap (Object resource) fields = Ok None ->
  artifacts.extractImages resource (fields ++ [key]) = Returns (Ok []).
Proof.
  intros Habsent. unfold artifacts.extractImages, NestedSlice.
  rewrite NestedFieldNoCopy_absent; [done|].
  unfold NestedMap in Habsent.
  by destruct (NestedFieldNoCopy (VMap (Object resource)) fields) as [[[]|]|].
Qed.

(** X17.  For each of the eight workload kinds the credential resolver reads
    the pod spec at the path the extractor reads the containers under.
    When there is nothing at that path the two differ: the resolver
    fails, "unstructured resource do not match Pod spec", while the
    extractor returns an artifact without images (or the error of an
    unreadable name). *)
Theorem getWorkloadPodSpec_path (un : Unstructured) :
  GetKind un ∈ Spec.workloadKinds ->
  let path := artifacts.nestedKeysOf (GetKind un) in
  k8s.getWorkloadPodSpec Decode un = k8s.podSpecAt Decode un path
  /\ (NestedMap (Object un) path = Ok None ->
      k8s.getWorkloadPodSpec Decode un = Err NoPodSpecError
      /\ artifacts.Images <$> returnedValue (artifacts.FromResource un)
         = if Spec.nameReadable un then Some [] else None).
Proof.
  intros Hkind path. split; [by apply getWorkloadPodSpec_supported|].
  intros Habsent. split.
  - rewrite getWorkloadPodSpec_supported by done. unfold k8s.podSpecAt. fold path.
    by rewrite Habsent.
  - unfold artifacts.FromResource, Spec.nameReadable. fold path.
    rewrite !extractImages_absent by done.
    by destruct (NestedString (Object un) ["metadata"; "name"]).
Qed.

(** X18.  A pod spec that decodes with an error is still used when at least
    one container came out of it: the error is dropped and the pull
    secrets are those of the partial spec.  Without a container the
    decoder's error is returned. *)
Theorem AuthByResource_partial_decode (c : k8s.cluster) (un : Unstructured)
    (objectMap : gmap string value) :
  GetKind un ∈ Spec.workloadKinds ->
  NestedMap (Object un) (artifacts.nestedKeysOf (GetKind un)) = Ok (Some objectMap) ->
  (corev1.Containers (Decode objectMap).1 <> [] ->
   k8s.AuthByResource R GetServerFromDockerAuthKey ConfigRead Decode c un
   = k8s.ListImagePullSecretsByPodSpec R GetServerFromDockerAuthKey ConfigRead c
       (Some (Decode objectMap).1) (GetNamespace un))
  /\ (forall err, corev1.Containers (Decode objectMap).1 = [] ->
        (Decode objectMap).2 = Some err ->
        k8s.AuthByResource R GetServerFromDockerAuthKey ConfigRead Decode c un = Err err).
Proof.
  intros Hkind Hmap. unfold k8s.AuthByResource.
  rewrite getWorkloadPodSpec_supported by done. unfold k8s.podSpecAt, k8s.mapToPodSpec.
  rewrite Hmap. destruct (Decode objectMap) as [ps [err|]]; cbn [fst snd]; split.
  - intros Hcontainers. destruct (corev1.Containers ps) as [|container rest]; [done|].
    cbn [length Nat.eqb]. by destruct (k8s.ListImagePullSecretsByPodSpec _ _ _ _ _ _).
  - intros err' -> [= <-]. done.
  - intros _. by destruct (k8s.ListImagePullSecretsByPodSpec _ _ _ _ _ _).
  - done.
Qed.

(** X19.  The owner kinds [IsBuiltInWorkload] accepts are the supported
    workload kinds other than Pod; no owner is no built-in workload. *)
Theorem IsBuiltInWorkload_kinds (resource : option metav1.OwnerReference) :
  k8s.IsBuiltInWorkload resource = true <->
  exists owner,
    resource = Some owner
    /\ metav1.Kind owner ∈ Spec.workloadKinds
    /\ metav1.Kind owner <> k8s.KindPod.
Proof.
  destruct resource as [owner|]; [|split; [done|by intros (owner & [=] & _)]].
  unfold k8s.IsBuiltInWorkload, Spec.workloadKinds. rewrite !orb_true_iff, !String.eqb_eq.
  split.
  - intros Hkind. exists owner. split; [done|].
    destruct Hkind as [[[[[[->| ->]| ->]| ->]| ->]| ->]| ->]; (split; [set_solver|done]).
  - intros (owner' & [= <-] & Hin & Hne). apply list_elem_of_In in Hin.
    repeat destruct Hin as [Heq|Hin]; try done; symmetry in Heq; tauto.
Qed.

End PodSpecs.

(** A Deployment without a spec. *)
Lemma getWorkloadPodSpec_path_witness :
  k8s.getWorkloadPodSpec Sample.Decode Sample.bareDeployment = Err NoPodSpecError
  /\ artifacts.Images <$> returnedValue (artifacts.FromResource Sample.bareDeployment)
     = Some [].
Proof.
  assert (unstructured.GetKind Sample.bareDeployment ∈ Spec.workloadKinds) as Hkind
    by (apply (bool_decide_unpack _); vm_compute; exact I).
  destruct (getWorkloadPodSpec_path Sample.Decode Sample.bareDeployment Hkind)
    as [_ Habsent].
  apply Habsent. vm_compute. reflexivity.
Defined.

(** The CronJob of the examples, decoded with an error and one container. *)
Lemma AuthByResource_partial_decode_witness :
  k8s.AuthByResource canonicalRange Sample.GetServerFromDockerAuthKey Sample.ConfigRead
    Sample.lenientDecode Sample.withSecrets Sample.cronJob
  = k8s.ListImagePullSecretsByPodSpec canonicalRange Sample.GetServerFromDockerAuthKey
      Sample.ConfigRead Sample.withSecrets
      (Some (Sample.lenientDecode
               {[ "containers" :=
                    unstructured.VSlice [Sample.containerEntry "nginx:1.25"] ]}).1)
      (unstructured.GetNamespace Sample.cronJob).
Proof.
  assert (unstructured.GetKind Sample.cronJob ∈ Spec.workloadKinds) as Hkind
    by (apply (bool_decide_unpack _); vm_compute; exact I).
  assert (unstructured.NestedMap (unstructured.Object Sample.cronJob)
            (artifacts.nestedKeysOf (unstructured.GetKind Sample.cronJob))
          = Ok (Some {[ "containers" :=
                          unstructured.VSlice [Sample.containerEntry "nginx:1.25"] ]}))
    as Hmap by (vm_compute; reflexivity).
  destruct (AuthByResource_partial_decode canonicalRange Sample.GetServerFromDockerAuthKey
              Sample.ConfigRead Sample.lenientDecode Sample.withSecrets Sample.cronJob
              _ Hkind Hmap) as [Hused _].
  apply Hused. done.
Defined.

(** ** Resources, malformed container lists and pod selectors *)
Section Resources.

Variable ResourceFor : schema.GroupVersionResource -> result schema.GroupVersionResource.

Lemma GetGVRs_loop (resources : list string) (acc : list schema.GroupVersionResource) :
  match k8s.foldResult
          (fun grvs resource =>
             match k8s.GetGVR ResourceFor resource with
             | Err err => Err err
             | Ok gvr => Ok (grvs ++ [gvr])%list
             end)
          acc resources with
  | Ok gvrs =>
      exists found,
        gvrs = (acc ++ found)%list
        /\ Forall2 (fun kind gvr => k8s.GetGVR ResourceFor kind = Ok gvr) resources found
  | Err err =>
      exists before kind after,
        resources = (before ++ kind :: after)%list
        /\ Forall (fun kind => exists gvr, k8s.GetGVR ResourceFor kind = Ok gvr) before
        /\ k8s.GetGVR ResourceFor kind = Err err
  end.
Proof.
  revert acc. induction resources as [|kind resources IH]; intros acc.
  - simpl. exists []. split; [by rewrite app_nil_r|constructor].
  - cbn [k8s.foldResult].
    destruct (k8s.GetGVR ResourceFor kind) as [gvr|err] eqn:Hkind.
    + specialize (IH (acc ++ [gvr])%list).
      destruct (k8s.foldResult _ _ resources) as [gvrs|err].
      * destruct IH as (found & -> & Hall). exists (gvr :: found).
        split; [by rewrite <- app_assoc|by constructor].
      * destruct IH as (before & kind' & after & -> & Hbefore & Herr).
        exists (kind :: before), kind', after. split; [done|]. split; [|done].
        constructor; [eauto|done].
    + exists [], kind, resources. split; [done|]. split; [constructor|done].
Qed.

(** X20.  [GetGVRs] resolves the resources asked for, one by one and in their
    order, and returns the first failure as it is.  Without an explicit
    list it asks for the namespaced resources and, unless told to stay
    within namespaces, for the cluster resources after them; told so,
    it asks for no cluster resource.  An explicit list is resolved as
    given, whatever the flag. *)
Theorem GetGVRs_resolution (namespaced : bool) (resources : list string) :
  let wanted :=
    match resources with
    | [] =>
        if namespaced then k8s.getNamespaceResources
        else (k8s.getNamespaceResources ++ k8s.getClusterResources)%list
    | _ => resources
    end in
  match k8s.GetGVRs ResourceFor namespaced resources with
  | Ok gvrs => Forall2 (fun kind gvr => k8s.GetGVR ResourceFor kind = Ok gvr) wanted gvrs
  | Err err =>
      exists before kind after,
        wanted = (before ++ kind :: after)%list
        /\ Forall (fun kind => exists gvr, k8s.GetGVR ResourceFor kind = Ok gvr) before
        /\ k8s.GetGVR ResourceFor kind = Err err
  end
  /\ (resources = [] -> namespaced = true ->
      forall kind group version,
        kind ∈ wanted ->
        k8s.IsClusterResource {| schema.Group := group; schema.Version := version;
                                 schema.Resource := kind |} = false)
  /\ (resources <> [] ->
      k8s.GetGVRs ResourceFor true resources = k8s.GetGVRs ResourceFor false resources).
Proof.
  intros wanted. split; [|split].
  - assert (k8s.GetGVRs ResourceFor namespaced resources
            = k8s.foldResult
                (fun grvs resource =>
                   match k8s.GetGVR ResourceFor resource with
                   | Err err => Err err
                   | Ok gvr => Ok (grvs ++ [gvr])%list
                   end)
                [] wanted) as ->.
    { unfold k8s.GetGVRs, wanted. destruct resources; [by destruct namespaced|done]. }
    pose proof (GetGVRs_loop wanted []) as Hloop.
    destruct (k8s.foldResult _ _ wanted) as [gvrs|err]; [|done].
    by destruct Hloop as (found & -> & Hall).
  - intros -> -> kind group version Hin. unfold wanted in Hin.
    unfold k8s.IsClusterResource. cbn [schema.Resource].
    apply list_elem_of_In in Hin. unfold k8s.getNamespaceResources in Hin.
    repeat destruct Hin as [<-|Hin]; try done.
  - intros Hne. unfold k8s.GetGVRs. by destruct resources.
Qed.

End Resources.

Section ExtractorMore.
Import strings unstructured.

Lemma containerImages_panics (containers : list value) :
  artifacts.containerImages containers = Panics <->
  exists before entry after,
    containers = (before ++ entry :: after)%list
    /\ forallb Spec.entryReadable before = true
    /\ Spec.isMap entry = false.
Proof.
  induction containers as [|container rest IH].
  - split; [done|]. by intros ([|? ?] & entry & after & Heq & _).
  - cbn [artifacts.containerImages]. destruct container as [| | | |m|].
    1-4, 6: split; [intros _; by eexists [], _, rest|done].
    rewrite NestedString_image.
    assert (forall images : list string,
              (match artifacts.containerImages rest with
               | Returns (Ok images') => Returns (Ok (images ++ images')%list)
               | stopped => stopped
               end = Panics :> outcome (result (list string)))
              <-> artifacts.containerImages rest = Panics) as Hrest.
    { intros images. by destruct (artifacts.containerImages rest) as [[?|?]|]. }
    assert (Spec.entryReadable (VMap m) = true ->
            artifacts.containerImages rest = Panics <->
            exists before entry after,
              VMap m :: rest = (before ++ entry :: after)%list
              /\ forallb Spec.entryReadable before = true
              /\ Spec.isMap entry = false) as Hcons.
    { intros Hreadable. rewrite IH. split.
      - intros (before & entry & after & -> & Hbefore & Hentry).
        exists (VMap m :: before), entry, after. split; [done|]. split; [|done].
        cbn [forallb]. by rewrite Hreadable, Hbefore.
      - intros ([|first before] & entry & after & Heq & Hbefore & Hentry).
        + injection Heq as <- _. done.
        + injection Heq as <- ->. cbn [forallb] in Hbefore.
          apply andb_true_iff in Hbefore as [_ Hbefore]. by exists before, entry, after. }
    unfold Spec.entryReadable in Hcons.
    destruct (m !! "image") as [[| | |s| |]|] eqn:Himage.
    4: { rewrite <- (Hcons eq_refl). by destruct (artifacts.containerImages rest) as [[?|?]|]. }
    6: { rewrite <- (Hcons eq_refl). by destruct (artifacts.containerImages rest) as [[?|?]|]. }
    all: split; [done|].
    all: intros ([|first before] & entry & after & Heq & Hbefore & Hentry);
      [by injection Heq as <- _|].
    all: injection Heq as <- _; cbn [forallb Spec.entryReadable] in Hbefore;
      by rewrite Himage in Hbefore.
Qed.

(** X21.  [FromResource] panics only on a container list that holds an entry
    which is not a map; and it does panic when the containers list has
    one after entries that read well. *)
Theorem FromResource_panics (resource : Unstructured) :
  let path := artifacts.nestedKeysOf (GetKind resource) in
  (artifacts.FromResource resource = Panics ->
   exists key entries entry,
     key ∈ ["containers"; "ephemeralContainers"; "initContainers"]
     /\ NestedSlice (Object resource) (path ++ [key]) = Ok (Some entries)
     /\ entry ∈ entries
     /\ Spec.isMap entry = false)
  /\ (forall before entry after,
        NestedSlice (Object resource) (path ++ ["containers"])
        = Ok (Some (before ++ entry :: after)%list) ->
        forallb Spec.entryReadable before = true ->
        Spec.isMap entry = false ->
        artifacts.FromResource resource = Panics).
Proof.
  intros path.
  assert (forall key,
            artifacts.extractImages resource (path ++ [key]) = Panics ->
            exists entries entry,
              NestedSlice (Object resource) (path ++ [key]) = Ok (Some entries)
              /\ entry ∈ entries /\ Spec.isMap entry = false) as Hlist.
  { intros key. unfold artifacts.extractImages.
    destruct (NestedSlice (Object resource) (path ++ [key])) as [[entries|]|]; [|done..].
    intros (before & entry & after & -> & _ & Hentry)%containerImages_panics.
    exists (before ++ entry :: after)%list, entry. split; [done|]. split; [|done].
    apply elem_of_app. right. by left. }
  split.
  - unfold artifacts.FromResource. fold path.
    destruct (artifacts.extractImages resource (path ++ ["containers"])) as [[cs|]|] eqn:Hc.
    2: done.
    2: { intros _. destruct (Hlist _ Hc) as (entries & entry & H).
         exists "containers", entries, entry. split; [|done].
         apply list_elem_of_In. simpl. tauto. }
    destruct (artifacts.extractImages resource (path ++ ["ephemeralContainers"]))
      as [[es|]|] eqn:He.
    2: done.
    2: { intros _. destruct (Hlist _ He) as (entries & entry & H).
         exists "ephemeralContainers", entries, entry. split; [|done].
         apply list_elem_of_In. simpl. tauto. }
    destruct (artifacts.extractImages resource (path ++ ["initContainers"]))
      as [[ins|]|] eqn:Hi.
    2: done.
    2: { intros _. destruct (Hlist _ Hi) as (entries & entry & H).
         exists "initContainers", entries, entry. split; [|done].
         apply list_elem_of_In. simpl. tauto. }
    by destruct (NestedString (Object resource) ["metadata"; "name"]).
  - intros before entry after Hslice Hbefore Hentry.
    unfold artifacts.FromResource, artifacts.extractImages. fold path. rewrite Hslice.
    assert (artifacts.containerImages (before ++ entry :: after) = Panics) as ->; [|done].
    apply containerImages_panics. by exists before, entry, after.
Qed.

End ExtractorMore.

Section Selectors.
Import strings.
Variable U : Unicode.
Variable R : MapRange.
Variable ParseReference : string -> result containerimage.Reference.

Lemma isOpenShift_iff (c : k8s.cluster) :
  k8s.isOpenShift c = false <->
  exists err,
    client.NamespacesGet (k8s.clientset c) "openshift-kube-apiserver" = Err err
    /\ IsNotFound err = true.
Proof.
  unfold k8s.isOpenShift.
  destruct (client.NamespacesGet _ _) as [?|err].
  - split; [done|]. by intros (err & [=] & _).
  - rewrite negb_false_iff. split; [eauto|]. by intros (err' & [= <-] & H).
Qed.

(** X9.  The components [CreateBomComponents] returns are exactly those
    of the pods listed under the selectors of the namespace: under
    "component" in the namespace asked for, or, for a named namespace
    on a cluster taken for OpenShift, under the four OpenShift
    selectors in their own namespaces whatever the namespace asked
    for; then the addons, under "k8s-app" in kube-system when the
    namespace is empty or kube-system, and under the controller
    selector in the namespace asked for unless that is kube-system.  A
    cluster is taken for OpenShift unless the lookup of
    "openshift-kube-apiserver" fails with not-found. *)
Theorem CreateBomComponents_sources (c : k8s.cluster) (namespace : string) :
  (exists components,
     k8s.CreateBomComponents U R ParseReference c namespace = Ok components
     /\ forall component,
          component ∈ components <->
          exists podNamespace labelSelector pods pod,
            (podNamespace, labelSelector) ∈ Spec.podSelectors (k8s.isOpenShift c) namespace
            /\ client.PodsList (k8s.clientset c) podNamespace labelSelector = Ok pods
            /\ pod ∈ pods
            /\ k8s.PodInfo U R ParseReference pod labelSelector = Ok component)
  /\ (k8s.isOpenShift c = false <->
      exists err,
        client.NamespacesGet (k8s.clientset c) "openshift-kube-apiserver" = Err err
        /\ IsNotFound err = true).
Proof.
  split; [|apply isOpenShift_iff].
  unfold k8s.CreateBomComponents. cbv zeta.
  match goal with
  | |- context [k8s.collectComponents U R ParseReference c ?labels] =>
      destruct (collectComponents_exact U R ParseReference c labels)
        as (components & -> & Hcore)
  end.
  match goal with
  | |- context [k8s.collectComponents U R ParseReference c ?labels] =>
      destruct (collectComponents_exact U R ParseReference c labels)
        as (addons & -> & Haddons)
  end.
  exists (components ++ addons)%list. split; [done|]. intros component.
  rewrite elem_of_app, Hcore, Haddons. unfold Spec.podSelectors.
  change k8s.k8sComponentNamespace with "kube-system".
  split.
  - intros [(ns & sel & pods & pod & Hsel & H)|(ns & sel & pods & pod & Hsel & H)];
      exists ns, sel, pods, pod; (split; [|done]); apply elem_of_app; [left|right].
    + destruct (negb (String.eqb namespace EmptyString) && k8s.isOpenShift c).
      * by apply elem_of_list_to_map_2 in Hsel.
      * apply lookup_singleton_Some in Hsel as [<- <-]. by left.
    + destruct (String.eqb_spec namespace "kube-system") as [->|Hks].
      * cbn [String.eqb orb] in Hsel.
        apply lookup_insert_Some in Hsel as [[<- <-]|[Hne [Heq _]%lookup_singleton_Some]];
          [by left|done].
      * destruct (String.eqb_spec namespace EmptyString) as [->|Hempty].
        -- cbn [orb] in Hsel.
           apply lookup_insert_Some in Hsel as [[<- <-]|[Hne Hsel]];
             [apply list_elem_of_In; simpl; tauto|].
           apply lookup_singleton_Some in Hsel as [<- <-]. by left.
        -- cbn [orb] in Hsel. apply lookup_singleton_Some in Hsel as [<- <-]. by left.
  - intros (ns & sel & pods & pod & [Hsel|Hsel]%elem_of_app & H); [left|right];
      exists ns, sel, pods, pod; (split; [|done]).
    + destruct (negb (String.eqb namespace EmptyString) && k8s.isOpenShift c).
      * apply elem_of_list_to_map_1; [|done].
        apply (bool_decide_unpack _). vm_compute. exact I.
      * apply list_elem_of_In in Hsel as [[= <- <-]|[]]. by apply lookup_singleton_Some.
    + destruct (String.eqb_spec namespace "kube-system") as [->|Hks].
      * cbn [String.eqb orb].
        apply list_elem_of_In in Hsel as [[= <- <-]|[]]. by rewrite lookup_insert_eq.
      * destruct (String.eqb_spec namespace EmptyString) as [->|Hempty]; cbn [orb].
        -- apply list_elem_of_In in Hsel as [[= <- <-]|[[= <- <-]|[]]]; [done|].
           by rewrite lookup_insert_eq.
        -- apply list_elem_of_In in Hsel as [[= <- <-]|[]]. by apply lookup_singleton_Some.
Qed.

End Selectors.

(** ** Examples for the assembler *)
(** A pod whose one container has not started and is not pinned by digest. *)
Lemma PodInfo_not_started_witness :
  exists component,
    k8s.PodInfo asciiUnicode canonicalRange Sample.ParseReference
      (Sample.nginxPod ∅ []) "component" = Ok component
    /\ bom.Containers component = [].
Proof.
  apply (PodInfo_not_started asciiUnicode canonicalRange Sample.ParseReference
           (Sample.nginxPod ∅ []) "component" eq_refl).
  intros c Hc. apply list_elem_of_In in Hc. destruct Hc as [<-|[]].
  split; vm_compute; reflexivity.
Defined.

(** A running addon pod, listed by the selector of the controllers. *)
Lemma PodInfo_version_fallback_witness :
  exists component,
    k8s.PodInfo asciiUnicode canonicalRange Sample.ParseReference
      (Sample.nginxPod {[ "k8s-app" := "kube-dns" ]} [Sample.nginxRunning])
      "app.kubernetes.io/component=controller" = Ok component
    /\ bom.ComponentVersion component = "1.25".
Proof.
  assert (k8s.mapIndex
            (corev1.PodLabels
               (Sample.nginxPod {[ "k8s-app" := "kube-dns" ]} [Sample.nginxRunning]))
            "app.kubernetes.io/version" = EmptyString) as Hnone
    by (vm_compute; reflexivity).
  assert (k8s.mapIndex
            (corev1.PodLabels
               (Sample.nginxPod {[ "k8s-app" := "kube-dns" ]} [Sample.nginxRunning]))
            "app.kubernetes.io/component=controller" = EmptyString) as Hselector
    by (vm_compute; reflexivity).
  destruct (PodInfo_version_fallback asciiUnicode canonicalRange Sample.ParseReference
              (Sample.nginxPod {[ "k8s-app" := "kube-dns" ]} [Sample.nginxRunning])
              "app.kubernetes.io/component=controller" Hnone Hselector)
    as (component & Hinfo & Hversion).
  exists component. split; [exact Hinfo|]. rewrite Hversion.
  assert (Some component
          = okValue (k8s.PodInfo asciiUnicode canonicalRange Sample.ParseReference
                       (Sample.nginxPod {[ "k8s-app" := "kube-dns" ]} [Sample.nginxRunning])
                       "app.kubernetes.io/component=controller")) as Hcomponent
    by (by rewrite Hinfo).
  vm_compute in Hcomponent. injection Hcomponent as ->. vm_compute. reflexivity.
Defined.

(** A pod that carries its name and version in its labels. *)
Lemma PodInfo_labelled_witness :
  exists component,
    k8s.PodInfo asciiUnicode canonicalRange Sample.ParseReference
      (Sample.nginxPod
         (<["app.kubernetes.io/name" := "coredns"]>
            {[ "app.kubernetes.io/version" := "1.10.1" ]}) [])
      "k8s-app" = Ok component
    /\ bom.ComponentVersion component = "1.10.1"
    /\ bom.Properties component !! "Name" = Some "pod-2".
Proof.
  assert (k8s.mapIndex
            (corev1.PodLabels
               (Sample.nginxPod
                  (<["app.kubernetes.io/name" := "coredns"]>
                     {[ "app.kubernetes.io/version" := "1.10.1" ]}) []))
            "app.kubernetes.io/name" <> EmptyString) as Hname
    by (vm_compute; discriminate).
  destruct (PodInfo_labelled asciiUnicode canonicalRange Sample.ParseReference
              (Sample.nginxPod
                 (<["app.kubernetes.io/name" := "coredns"]>
                    {[ "app.kubernetes.io/version" := "1.10.1" ]}) [])
              "k8s-app" Hname)
    as (component & Hinfo & _ & _ & _ & Hpod & _ & Hversion).
  exists component. split; [exact Hinfo|]. split; [|exact Hpod].
  rewrite Hversion; [vm_compute; reflexivity|vm_compute; discriminate].
Defined.

(** The one node of the sample cluster, a worker. *)
Lemma CollectNodes_inventory_witness :
  exists infos,
    k8s.CollectNodes asciiUnicode (Sample.versioned "v1.27.3") [] = Ok infos
    /\ map bom.NodeName infos = ["node-1"].
Proof.
  destruct (CollectNodes_inventory asciiUnicode (Sample.versioned "v1.27.3") []
              [Sample.nodeWithKubelet "v1.27.3"] eq_refl)
    as (infos & Hnodes & Hnames & _).
  exists infos. split; [exact Hnodes|exact Hnames].
Defined.

(** The cluster of the context "dev". *)
Lemma ClusterNameVersion_name_witness :
  k8s.ClusterNameVersion Sample.withSecrets = Ok ("dev-cluster", "v1.27.3").
Proof.
  rewrite (ClusterNameVersion_name Sample.withSecrets _ "v1.27.3" eq_refl eq_refl).
  vm_compute. reflexivity.
Defined.
